(** * ccswitch: worktree safety checks and rebase propagation

    A shallow embedding of the rebase and fanout commands of ccswitch
    (package cmd) and of the git helpers they call
    (internal/git/repository.go, commit.go, rebase.go).

    Every [exec.Command("git", ...)] of the Go code is a value of [Cmd];
    running it asks the backend of the [World] for its combined output and
    its error and appends the command to the world's [trace].  Terminal
    output is a list of [Out] events, one constructor per call site of the
    [ui] and [fmt] printing functions, carrying the format arguments. *)

From Stdlib Require Import String Ascii List ZArith Bool Lia.
Import ListNotations.
Local Open Scope string_scope.
Local Open Scope Z_scope.

(** ** Go's [strings] and [fmt] functions used by the commands *)

Module strings.

(** [strings.HasPrefix(s, prefix)] *)
Fixpoint HasPrefix (s prefix : string) {struct prefix} : bool :=
  match prefix with
  | EmptyString => true
  | String c prefix' =>
      match s with
      | EmptyString => false
      | String d s' => Ascii.eqb c d && HasPrefix s' prefix'
      end
  end.

(** [strings.HasSuffix(s, suffix)] *)
Fixpoint HasSuffix (s suffix : string) : bool :=
  String.eqb s suffix ||
  match s with
  | EmptyString => false
  | String _ s' => HasSuffix s' suffix
  end.

(** [strings.Contains(s, substr)]: byte-wise, case-sensitive. *)
Fixpoint Contains (s substr : string) : bool :=
  HasPrefix s substr ||
  match s with
  | EmptyString => false
  | String _ s' => Contains s' substr
  end.

(** The UTF-8 encodings of the white-space runes of [unicode.IsSpace]
    (the same runes as the [space] table of package fmt): tab, line feed,
    vertical tab, form feed, carriage return, space, U+0085, U+00A0,
    U+1680, U+2000 to U+200A, U+2028, U+2029, U+202F, U+205F, U+3000. *)
Definition bytes (l : list nat) : string :=
  string_of_list_ascii (map ascii_of_nat l).

Definition spaceRunes : list string :=
  map bytes
    [ [9]; [10]; [11]; [12]; [13]; [32];
      [194; 133]; [194; 160];
      [225; 154; 128];
      [226; 128; 128]; [226; 128; 129]; [226; 128; 130]; [226; 128; 131];
      [226; 128; 132]; [226; 128; 133]; [226; 128; 134]; [226; 128; 135];
      [226; 128; 136]; [226; 128; 137]; [226; 128; 138];
      [226; 128; 168]; [226; 128; 169]; [226; 128; 175];
      [226; 129; 159];
      [227; 128; 128] ]%nat.

(** [x] is the encoding of one white-space rune. *)
Definition isSpaceRune (x : string) : bool := existsb (String.eqb x) spaceRunes.

(** The white-space runes at the head of [s] removed: what decoding [s]
    rune by rune from the left removes.  An encoding of a white-space rune
    is one, two or three bytes long. *)
Fixpoint TrimLeft (s : string) : string :=
  match s with
  | EmptyString => EmptyString
  | String c0 r0 =>
      if isSpaceRune (String c0 "") then TrimLeft r0
      else
        match r0 with
        | EmptyString => s
        | String c1 r1 =>
            if isSpaceRune (String c0 (String c1 "")) then TrimLeft r1
            else
              match r1 with
              | EmptyString => s
              | String c2 r2 =>
                  if isSpaceRune (String c0 (String c1 (String c2 "")))
                  then TrimLeft r2
                  else s
              end
        end
  end.

(** The white-space runes at the end of [s] removed: what decoding [s]
    rune by rune from the right removes. *)
Fixpoint TrimRight (s : string) : string :=
  match s with
  | EmptyString => EmptyString
  | String c s' =>
      let t := TrimRight s' in
      if isSpaceRune (String c t) then "" else String c t
  end.

(** [strings.TrimSpace(s)] *)
Definition TrimSpace (s : string) : string := TrimRight (TrimLeft s).

Definition lower (c : ascii) : ascii :=
  let n := nat_of_ascii c in
  if ((65 <=? n) && (n <=? 90))%nat then ascii_of_nat (n + 32) else c.

(** [strings.ToLower(s)] on ASCII letters; every other byte stays as it is.
    The commands only compare the result with "yes": no letter outside
    ASCII has "y", "e" or "s" as its lower case, so the comparison comes
    out as in Go. *)
Fixpoint ToLower (s : string) : string :=
  match s with
  | EmptyString => EmptyString
  | String c s' => String (lower c) (ToLower s')
  end.

(** The first white-space delimited field of a line, as [fmt.Scanln] stores
    it into a single string operand: the white space at the head of the
    line is skipped, and the field ends where the encoding of a white-space
    rune begins.  Bytes that are not valid UTF-8 stay as they are (fmt
    stores U+FFFD for each one); the commands only compare the lower-cased
    field with "yes", which no field with such a byte equals either way. *)
Definition atSpace (s : string) : bool :=
  match s with
  | EmptyString => false
  | String c0 r0 =>
      isSpaceRune (String c0 "") ||
      match r0 with
      | EmptyString => false
      | String c1 r1 =>
          isSpaceRune (String c0 (String c1 "")) ||
          match r1 with
          | EmptyString => false
          | String c2 _ => isSpaceRune (String c0 (String c1 (String c2 "")))
          end
      end
  end.

Fixpoint field (s : string) : string :=
  match s with
  | EmptyString => EmptyString
  | String c s' => if atSpace s then EmptyString else String c (field s')
  end.

Definition firstField (line : string) : string := field (TrimLeft line).

End strings.

(** Go's [int] on the 64-bit targets: two's complement wrap-around. *)
Definition int_min : Z := - 2 ^ 63.
Definition int_max : Z := 2 ^ 63 - 1.
Definition int_wrap (z : Z) : Z := (z + 2 ^ 63) mod 2 ^ 64 - 2 ^ 63.
Definition int_sub (a b : Z) : Z := int_wrap (a - b).
Definition int_neg (a : Z) : Z := int_wrap (- a).

Module fmt.

Definition digit (c : ascii) : option Z :=
  let n := Z.of_nat (nat_of_ascii c) in
  if (48 <=? n) && (n <=? 57) then Some (n - 48) else None.

(** The longest run of decimal digits at the head of [s]; [None] when the
    run is empty. *)
Fixpoint scanNumber (s : string) (acc : option Z) : option Z :=
  match s with
  | EmptyString => acc
  | String c s' =>
      match digit c with
      | Some d =>
          scanNumber s' (Some (10 * match acc with Some a => a | None => 0 end + d))
      | None => acc
      end
  end.

(** [fmt.Sscanf(s, "%d", &n)] on a string without leading white space (the
    call sites pass the result of [strings.TrimSpace]): an optional sign,
    then decimal digits; what follows the digits is left unread.  [None]
    is a scan error (no digit, or a value outside [int]), in which case the
    operand keeps the value it had. *)
Definition Sscanf_d (s : string) : option Z :=
  let '(neg, rest) :=
    match s with
    | String "-"%char r => (true, r)
    | String "+"%char r => (false, r)
    | _ => (false, s)
    end in
  match scanNumber rest None with
  | None => None
  | Some n =>
      let v := if neg then - n else n in
      if (int_min <=? v) && (v <=? int_max) then Some v else None
  end.

End fmt.

(** [filepath.IsAbs(path)] on Unix: the path begins with a slash. *)
Definition filepath_IsAbs (path : string) : bool := strings.HasPrefix path "/".

(** ** Data model *)

(** [git.Worktree]: a working directory bound to a branch; the branch is
    empty for a detached HEAD. *)
Record Worktree := mkWorktree { Path : string; Branch : string }.

(** An [*exec.Cmd] built by [exec.Command(Name, Args...)] with its [Dir]. *)
Record Cmd := mkCmd { Name : string; Args : list string; Dir : string }.

Definition git_in (dir : string) (args : list string) : Cmd :=
  {| Name := "git"; Args := args; Dir := dir |}.

(** Go [error] values that reach the commands. *)
Inductive error : Type :=
| ExecError (msg : string)
    (* an error returned by os/exec, the operating system or a collaborator *)
| ErrConflictAborted
    (* fmt.Errorf("rebase conflict detected, auto-aborted") *)
| ErrRebaseFailed (err : error) (output : string)
    (* fmt.Errorf("rebase failed: %w, output: %s", err, outputStr) *)
| ErrAbortFailed (err : error) (output : string)
    (* fmt.Errorf("failed to abort rebase: %w, output: %s", err, output) *)
| ErrStageFailed (err : error) (output : string)
    (* fmt.Errorf("failed to stage changes: %w, output: %s", err, output) *)
| ErrCommitFailed (err : error) (output : string)
    (* fmt.Errorf("failed to commit: %w, output: %s", err, output) *)
| ErrLastCommit (err : error).
    (* fmt.Errorf("failed to get last commit: %w", err) *)

(** A Go result pair [(value, error)]. *)
Inductive result (A : Type) : Type :=
| Ok (a : A)
| Err (e : error).
Arguments Ok {A} a.
Arguments Err {A} e.

(** The status colours of the selector's list. *)
Inductive Color := Yellow | Green | Gray.

(** Terminal output, one constructor per printing call of the commands. *)
Inductive Out : Type :=
(* both commands *)
| Error_getwd                       (* ui.Error("✗ Failed to get current directory") *)
| Errorf_current_branch (e : error) (* ui.Errorf("✗ Failed to get current branch: %v", err) *)
| Errorf_list (e : error)           (* ui.Errorf("✗ Failed to list worktrees: %v", err) *)
| Println                           (* fmt.Println() *)
(* rebaseSession *)
| Info_no_worktrees                 (* ui.Info("No worktrees found") *)
| Errorf_not_found (target : string) (* ui.Errorf("✗ Worktree '%s' not found", target) *)
| Info_available                    (* ui.Info("Available worktrees:") *)
| Printf_available (wt : Worktree)  (* the two fmt.Printf lines of one available worktree *)
| Errorf_onto_itself (cur : string) (* ui.Errorf("✗ Cannot rebase %s onto itself", currentBranch) *)
| Infof_rebasing_onto (wt : Worktree) (cur : string)
                                    (* ui.Infof("Rebasing %s onto %s", displayName, currentBranch) *)
| Print_enter_message               (* fmt.Print("Enter commit message: ") *)
| Error_empty_message               (* ui.Error("✗ Commit message cannot be empty") *)
| Info_committing                   (* ui.Info("Committing changes...") *)
| Errorf_failed (e : error)         (* ui.Errorf("✗ Failed: %v", err) *)
| Successf_rebased (wt : Worktree) (cur : string)
                                    (* ui.Successf("✓ Successfully rebased %s onto %s", ...) *)
| Infof_preserved (path : string)   (* ui.Infof("Worktree preserved at: %s", path) *)
(* selectWorktreeForRebase *)
| Info_none_available               (* ui.Info("No worktrees available for rebase") *)
| Title_select                      (* ui.Title("Select worktree to rebase:") *)
| Printf_entry (c : Color) (i : Z) (wt : Worktree)
                                    (* statusColor.Printf("  %d. %s %s (%s)\n", ...) and its Path line *)
| Print_enter_number                (* fmt.Print("Enter number (or q to quit): ") *)
| Error_invalid_selection           (* ui.Error("✗ Invalid selection") *)
(* fanoutBranches *)
| Info_no_targets                   (* ui.Info("No other worktrees found to fanout to") *)
| Title_plan                        (* ui.Title("Fanout Plan") *)
| Infof_source (cur : string)       (* ui.Infof("Source: %s (current branch)", currentBranch) *)
| Infof_targets (n : Z)             (* ui.Infof("Targets: %d worktree(s)", len(targetWorktrees)) *)
| Printf_dirty (branch path : string) (* yellow.Printf("  ● %s (%s)\n", wt.Branch, wt.Path) *)
| Println_uncommitted               (* fmt.Println("     ⚠ Has uncommitted changes - cannot fanout") *)
| Errorf_check_failed (branch : string) (e : error)
                                    (* ui.Errorf("  ✗ %s: failed to check status - %v", wt.Branch, err) *)
| Printf_ahead (branch path : string) (* red.Printf("  ↑ %s (%s)\n", wt.Branch, wt.Path) *)
| Printf_ahead_by (cur : string) (diff : Z)
                                    (* fmt.Printf("     ⚠ Ahead of %s by %d commit(s) - cannot fanout\n", ...) *)
| Printf_safe (branch path : string) (* green.Printf("  ○ %s (%s)\n", wt.Branch, wt.Path) *)
| Printf_behind (n : Z)             (* fmt.Printf("     Behind by %d commit(s)\n", -diff) *)
| Println_up_to_date                (* fmt.Println("     Up to date") *)
| Errorf_cannot_fanout (n : Z)      (* ui.Errorf("✗ Cannot fanout: %d worktree(s) failed safety checks", ...) *)
| Info_fix_issues                   (* ui.Info("Please fix the issues above before running fanout") *)
| Info_nothing_to_fanout            (* ui.Info("No worktrees to fanout to") *)
| Title_ready                       (* ui.Title("Ready to Fanout") *)
| Warningf_will_rebase (n : Z) (cur : string)
                                    (* ui.Warningf("This will rebase %d worktree(s) onto %s", ...) *)
| Info_will_preserve                (* ui.Info("Worktrees will be preserved after successful fanout") *)
| Print_continue                    (* fmt.Print("Continue? (yes/no): ") *)
| Info_cancelled                    (* ui.Info("Fanout cancelled") *)
| Title_progress                    (* ui.Title("Fanout Progress") *)
| Infof_rebasing (branch cur : string)
                                    (* ui.Infof("Rebasing %s onto %s...", wt.Branch, currentBranch) *)
| Errorf_conflict_aborted           (* ui.Errorf("  ✗ Conflict detected, auto-aborted") *)
| Errorf_stopped_conflict (branch : string)
                                    (* ui.Errorf("✗ Fanout stopped at %s due to conflict", wt.Branch) *)
| Info_resolve                      (* ui.Info("Please resolve conflicts manually before continuing") *)
| Errorf_rebase_error (e : error)   (* ui.Errorf("  ✗ Failed: %v", errMsg) *)
| Errorf_stopped (branch : string)  (* ui.Errorf("✗ Fanout stopped at %s", wt.Branch) *)
| Errorf_rebase_failed              (* ui.Errorf("  ✗ Rebase failed") *)
| Successf_success                  (* ui.Successf("  ✓ Success") *)
| Title_complete                    (* ui.Title("Fanout Complete") *)
| Successf_fanned_out (n : Z)       (* ui.Successf("✓ Successfully fanned out to %d worktree(s)", ...) *)
| Infof_synchronized (cur : string). (* ui.Infof("All worktrees are now synchronized with %s", ...) *)

(** ** The world the commands run in

    [git] is the version-control backend: what a command answers (combined
    output, error) may depend on every command run before it, so it is a
    function of the trace so far.  [stdin] holds the lines still to be
    typed at the terminal; every read takes one line.

    Modelled from the spec: [session.Manager.GetCurrentBranch] and
    [git.WorktreeManager.List] are not among the sources.  The spec has the
    current branch as a read-only query that can fail, and the worktree
    registry as an external collaborator that returns a snapshot of
    (path, branch) pairs; with [os.Getwd] they are inputs of a run, the
    fields [manager_GetCurrentBranch], [worktreeManager_List] and
    [os_Getwd]. *)
Record World := mkWorld {
  git : list Cmd -> Cmd -> string * option error;
  os_Getwd : result string;
  manager_GetCurrentBranch : result string;
  worktreeManager_List : result (list Worktree);
  trace : list Cmd;
  stdin : list string;
  stdout : list Out
}.

Definition M (A : Type) : Type := World -> A * World.

Definition ret {A} (a : A) : M A := fun w => (a, w).
Definition bind {A B} (m : M A) (k : A -> M B) : M B :=
  fun w => let (a, w') := m w in k a w'.

Declare Scope go_scope.
Delimit Scope go_scope with go.
Notation "x <- m ;; k" := (bind m (fun x => k))
  (at level 61, m at next level, right associativity) : go_scope.
Notation "' p <- m ;; k" := (bind m (fun x => let 'p := x in k))
  (at level 61, p pattern, m at next level, right associativity) : go_scope.
Notation "m ;; k" := (bind m (fun _ => k))
  (at level 61, right associativity) : go_scope.
Local Open Scope go_scope.

Definition with_trace (w : World) (t : list Cmd) : World :=
  mkWorld (git w) (os_Getwd w) (manager_GetCurrentBranch w)
          (worktreeManager_List w) t (stdin w) (stdout w).
Definition with_stdin (w : World) (i : list string) : World :=
  mkWorld (git w) (os_Getwd w) (manager_GetCurrentBranch w)
          (worktreeManager_List w) (trace w) i (stdout w).
Definition with_stdout (w : World) (o : list Out) : World :=
  mkWorld (git w) (os_Getwd w) (manager_GetCurrentBranch w)
          (worktreeManager_List w) (trace w) (stdin w) o.

(** [cmd.CombinedOutput()] *)
Definition CombinedOutput (c : Cmd) : M (string * option error) :=
  fun w => (git w (trace w) c, with_trace w (trace w ++ [c])).

(** [cmd.Run()] *)
Definition Run (c : Cmd) : M (option error) :=
  r <- CombinedOutput c ;; ret (snd r).

Definition print (o : Out) : M unit :=
  fun w => (tt, with_stdout w (stdout w ++ [o])).

(** [bufio.NewScanner(os.Stdin)], [Scan()] and [Text()]: the text the
    prompt gets, the next line of the input, or [None] at its end.  [stdin]
    is the input of a terminal, handed over one line at a time; what the
    scanner leaves of the input for a later reader (it may buffer more
    than the line when the input is a pipe or a file) is not part of the
    model, and no property below speaks of it.  A line of 64 KiB or more,
    which the scanner refuses, is outside the model: the properties of the
    text read assume a shorter line. *)
Definition ScanLine : M (option string) :=
  fun w =>
    match stdin w with
    | [] => (None, w)
    | line :: rest => (Some line, with_stdin w rest)
    end.

(** [fmt.Scanln(&confirm)]: the operand after the call, which is the first
    field of the next line, the text between the white space at its head
    and the next white space; it stays empty when the line has no field or
    the input has ended.  The error of the call is ignored by the caller.
    How much of the line the call consumes (it stops at the field's end) is
    not part of the model: the line is dropped as a whole. *)
Definition Scanln : M string :=
  l <- ScanLine ;;
  ret match l with
      | Some line => strings.firstField line
      | None => ""
      end.

Definition len {A} (l : list A) : Z := Z.of_nat (length l).

(** ** internal/git/repository.go *)

(** [git.GetCurrentBranch(dir)] *)
Definition GetCurrentBranch (dir : string) : M (result string) :=
  '(output, err) <- CombinedOutput (git_in dir ["branch"; "--show-current"]) ;;
  match err with
  | Some e => ret (Err e)
  | None => ret (Ok (strings.TrimSpace output))
  end.

(** [git.HasUncommittedChanges(dir)] *)
Definition HasUncommittedChanges (dir : string) : M bool :=
  '(output, err) <- CombinedOutput (git_in dir ["status"; "--porcelain"]) ;;
  ret match err with
      | None => negb (String.eqb (strings.TrimSpace output) "")
      | Some _ => false
      end.

(** The count a rev-list output is parsed to: 0 when the trimmed output is
    empty or does not scan. *)
Definition parseCount (trimmed : string) : Z :=
  if String.eqb trimmed "" then 0
  else match fmt.Sscanf_d trimmed with
       | Some n => n
       | None => 0
       end.

(** [git.GetCommitCountDifference(worktreePath, baseBranch)] *)
Definition GetCommitCountDifference (worktreePath baseBranch : string)
  : M (result Z) :=
  '(aheadOutput, err) <-
     CombinedOutput (git_in worktreePath ["rev-list"; "--count"; baseBranch ++ "..HEAD"]) ;;
  match err with
  | Some e => ret (Err e)
  | None =>
      let ahead := strings.TrimSpace aheadOutput in
      '(behindOutput, err) <-
         CombinedOutput (git_in worktreePath ["rev-list"; "--count"; "HEAD.." ++ baseBranch]) ;;
      match err with
      | Some e => ret (Err e)
      | None =>
          let behind := strings.TrimSpace behindOutput in
          let aheadCount := parseCount ahead in
          let behindCount := parseCount behind in
          ret (Ok (int_sub aheadCount behindCount))
      end
  end.

(** ** internal/git/commit.go *)

(** [CommitManager.HasChanges()] with [cm.repoPath = repoPath] *)
Definition HasChanges (repoPath : string) : M bool :=
  '(output, err) <- CombinedOutput (git_in repoPath ["status"; "--porcelain"]) ;;
  ret match err with
      | None => negb (String.eqb (strings.TrimSpace output) "")
      | Some _ => false
      end.

(** [CommitManager.StageAll()] *)
Definition StageAll (repoPath : string) : M (option error) :=
  '(output, err) <- CombinedOutput (git_in repoPath ["add"; "-A"]) ;;
  ret match err with
      | Some e => Some (ErrStageFailed e output)
      | None => None
      end.

(** [CommitManager.Commit(message)] *)
Definition Commit (repoPath message : string) : M (option error) :=
  '(output, err) <- CombinedOutput (git_in repoPath ["commit"; "-m"; message]) ;;
  ret match err with
      | Some e => Some (ErrCommitFailed e output)
      | None => None
      end.

(** [CommitManager.GetLastCommitHash()] *)
Definition GetLastCommitHash (repoPath : string) : M (result string) :=
  '(output, err) <- CombinedOutput (git_in repoPath ["rev-parse"; "HEAD"]) ;;
  ret match err with
      | Some e => Err (ErrLastCommit e)
      | None => Ok (strings.TrimSpace output)
      end.

(** ** internal/git/rebase.go *)

(** The test both rebase functions apply to the output of a failed rebase. *)
Definition conflictOutput (outputStr : string) : bool :=
  strings.Contains outputStr "conflict" || strings.Contains outputStr "CONFLICT" ||
  strings.Contains outputStr "Failed to merge".

(** [RebaseManager.AbortRebase()] *)
Definition AbortRebase (repoPath : string) : M (option error) :=
  '(output, err) <- CombinedOutput (git_in repoPath ["rebase"; "--abort"]) ;;
  ret match err with
      | Some e => Some (ErrAbortFailed e output)
      | None => None
      end.

(** [RebaseManager.RebaseCommit(commitHash)]: (success, conflictDetected, error) *)
Definition RebaseCommit (repoPath commitHash : string)
  : M (bool * bool * option error) :=
  '(output, err) <- CombinedOutput (git_in repoPath ["rebase"; commitHash]) ;;
  match err with
  | Some e =>
      let outputStr := output in
      if conflictOutput outputStr then
        _ <- AbortRebase repoPath ;;
        ret (false, true, Some ErrConflictAborted)
      else ret (false, false, Some (ErrRebaseFailed e outputStr))
  | None => ret (true, false, None)
  end.

(** ** Package cmd: the fanout command *)

(** [abortRebaseInWorktree(worktreePath)] *)
Definition abortRebaseInWorktree (worktreePath : string) : M unit :=
  _ <- Run (git_in worktreePath ["rebase"; "--abort"]) ;;
  ret tt.

(** [rebaseWorktree(worktreePath, branch)]: (success, conflict, err) *)
Definition rebaseWorktree (worktreePath branch : string)
  : M (bool * bool * option error) :=
  '(output, e) <- CombinedOutput (git_in worktreePath ["rebase"; branch]) ;;
  match e with
  | Some e =>
      let outputStr := output in
      if conflictOutput outputStr then
        abortRebaseInWorktree worktreePath ;;
        ret (false, true, Some ErrConflictAborted)
      else ret (false, false, Some (ErrRebaseFailed e outputStr))
  | None => ret (true, false, None)
  end.

(** The branch the safety loop of [fanoutBranches] takes for one worktree. *)
Inductive SafetyVerdict : Type :=
| UnsafeDirty
| UnsafeError (e : error)
| UnsafeAhead (diff : Z)
| Safe (diff : Z).

Definition isSafe (v : SafetyVerdict) : bool :=
  match v with
  | Safe _ => true
  | _ => false
  end.

(** The body of the safety loop: check 1 (uncommitted changes), check 2
    (ahead of the current branch), and what it prints on each way out. *)
Definition checkWorktree (currentBranch : string) (wt : Worktree)
  : M SafetyVerdict :=
  dirty <- HasUncommittedChanges (Path wt) ;;
  if dirty then
    print (Printf_dirty (Branch wt) (Path wt)) ;;
    print Println_uncommitted ;;
    ret UnsafeDirty
  else
    r <- GetCommitCountDifference (Path wt) currentBranch ;;
    match r with
    | Err err =>
        print (Errorf_check_failed (Branch wt) err) ;;
        ret (UnsafeError err)
    | Ok diff =>
        if 0 <? diff then
          print (Printf_ahead (Branch wt) (Path wt)) ;;
          print (Printf_ahead_by currentBranch diff) ;;
          ret (UnsafeAhead diff)
        else
          print (Printf_safe (Branch wt) (Path wt)) ;;
          (if diff <? 0 then print (Printf_behind (int_neg diff))
           else print Println_up_to_date) ;;
          ret (Safe diff)
    end.

(** The safety loop over [targetWorktrees], with its two accumulators. *)
Fixpoint safetyChecks (currentBranch : string) (targetWorktrees : list Worktree)
    (unsafeWorktrees : list string) (safeWorktrees : list Worktree)
  : M (list string * list Worktree) :=
  match targetWorktrees with
  | [] => ret (unsafeWorktrees, safeWorktrees)
  | wt :: rest =>
      v <- checkWorktree currentBranch wt ;;
      if isSafe v
      then safetyChecks currentBranch rest unsafeWorktrees (safeWorktrees ++ [wt])
      else safetyChecks currentBranch rest (unsafeWorktrees ++ [Branch wt]) safeWorktrees
  end.

(** The fanout loop over [safeWorktrees].  [None]: the loop returned from
    the command; [Some n]: it ran to its end with [successCount = n]
    (the count never exceeds the length of the slice, so it does not wrap). *)
Fixpoint fanoutLoop (currentBranch : string) (safeWorktrees : list Worktree)
    (successCount : Z) : M (option Z) :=
  match safeWorktrees with
  | [] => ret (Some successCount)
  | wt :: rest =>
      print (Infof_rebasing (Branch wt) currentBranch) ;;
      '(success, hasConflict, errMsg) <- rebaseWorktree (Path wt) currentBranch ;;
      match errMsg with
      | Some e =>
          if hasConflict : bool then
            print Errorf_conflict_aborted ;;
            print (Errorf_stopped_conflict (Branch wt)) ;;
            print Info_resolve ;;
            ret None
          else
            print (Errorf_rebase_error e) ;;
            print (Errorf_stopped (Branch wt)) ;;
            ret None
      | None =>
          if negb success then
            print Errorf_rebase_failed ;;
            ret None
          else
            print Successf_success ;;
            fanoutLoop currentBranch rest (successCount + 1)
      end
  end.

(** The filter of [fanoutBranches]: not the current directory, not a
    detached HEAD, not the current branch. *)
Definition fanoutTarget (currentDir currentBranch : string) (wt : Worktree) : bool :=
  negb (String.eqb (Path wt) currentDir) && negb (String.eqb (Branch wt) "") &&
  negb (String.eqb (Branch wt) currentBranch).

(** [fanoutBranches] from the plan header on: safety checks, refusal,
    confirmation, fanout loop and summary. *)
Definition fanoutOnto (currentBranch : string) (targetWorktrees : list Worktree)
  : M unit :=
  print Title_plan ;;
  print (Infof_source currentBranch) ;;
  print (Infof_targets (len targetWorktrees)) ;;
  print Println ;;
  '(unsafeWorktrees, safeWorktrees) <-
     safetyChecks currentBranch targetWorktrees [] [] ;;
  print Println ;;
  if 0 <? len unsafeWorktrees then
    print (Errorf_cannot_fanout (len unsafeWorktrees)) ;;
    print Info_fix_issues
  else if len safeWorktrees =? 0 then print Info_nothing_to_fanout
  else
    print Title_ready ;;
    print (Warningf_will_rebase (len safeWorktrees) currentBranch) ;;
    print Info_will_preserve ;;
    print Println ;;
    print Print_continue ;;
    confirm <- Scanln ;;
    if negb (String.eqb (strings.ToLower confirm) "yes") then print Info_cancelled
    else
      print Title_progress ;;
      print Println ;;
      r <- fanoutLoop currentBranch safeWorktrees 0 ;;
      match r with
      | None => ret tt
      | Some successCount =>
          print Println ;;
          print Title_complete ;;
          print (Successf_fanned_out successCount) ;;
          if 0 <? successCount then print (Infof_synchronized currentBranch)
          else ret tt
      end.

(** [fanoutBranches(cmd, args)] *)
Definition fanoutBranches : M unit :=
  fun w0 =>
  (match os_Getwd w0 with
   | Err _ => print Error_getwd
   | Ok currentDir =>
   match manager_GetCurrentBranch w0 with
   | Err err => print (Errorf_current_branch err)
   | Ok currentBranch =>
   match worktreeManager_List w0 with
   | Err err => print (Errorf_list err)
   | Ok worktrees =>
       let targetWorktrees := filter (fanoutTarget currentDir currentBranch) worktrees in
       if len targetWorktrees =? 0 then print Info_no_targets
       else fanoutOnto currentBranch targetWorktrees
   end end end) w0.

(** ** Package cmd: the rebase command *)

(** The filter of [selectWorktreeForRebase]: not the current directory and
    not a detached HEAD. *)
Definition rebaseCandidate (currentDir : string) (wt : Worktree) : bool :=
  negb (String.eqb (Path wt) currentDir) && negb (String.eqb (Branch wt) "").

(** The numbered list of [selectWorktreeForRebase]; [i] is the loop index. *)
Fixpoint showEntries (currentBranch : string) (i : Z)
    (availableWorktrees : list Worktree) : M unit :=
  match availableWorktrees with
  | [] => ret tt
  | wt :: rest =>
      dirty <- HasUncommittedChanges (Path wt) ;;
      (if dirty then print (Printf_entry Yellow (i + 1) wt)
       else
         r <- GetCommitCountDifference (Path wt) currentBranch ;;
         match r with
         | Ok diff =>
             if 0 <? diff then print (Printf_entry Green (i + 1) wt)
             else print (Printf_entry Gray (i + 1) wt)
         | Err _ => print (Printf_entry Gray (i + 1) wt)
         end) ;;
      showEntries currentBranch (i + 1) rest
  end.

(** [selectWorktreeForRebase(worktrees, currentDir)]; [None] is Go's nil. *)
Definition selectWorktreeForRebase (worktrees : list Worktree)
    (currentDir : string) : M (option Worktree) :=
  let availableWorktrees := filter (rebaseCandidate currentDir) worktrees in
  if len availableWorktrees =? 0 then
    print Info_none_available ;;
    ret None
  else
    cb <- GetCurrentBranch currentDir ;;
    let currentBranch := match cb with Ok b => b | Err _ => "" end in
    print Title_select ;;
    print Println ;;
    showEntries currentBranch 0 availableWorktrees ;;
    print Println ;;
    print Print_enter_number ;;
    l <- ScanLine ;;
    match l with
    | None => ret None
    | Some text =>
        let input := strings.TrimSpace text in
        if String.eqb input "q" || String.eqb input "" then ret None
        else
          match fmt.Sscanf_d input with
          | None =>
              print Error_invalid_selection ;;
              ret None
          | Some choice =>
              if (choice <? 1) || (len availableWorktrees <? choice) then
                print Error_invalid_selection ;;
                ret None
              else ret (nth_error availableWorktrees (Z.to_nat (choice - 1)))
          end
    end.

(** [promptForCommitMessage()] *)
Definition promptForCommitMessage : M string :=
  print Print_enter_message ;;
  l <- ScanLine ;;
  ret match l with
      | None => ""
      | Some text => strings.TrimSpace text
      end.

(** The test of [rebaseSession] for "the argument is a path". *)
Definition isPathArg (target : string) : bool :=
  filepath_IsAbs target || strings.HasPrefix target "." || strings.HasPrefix target "~".

(** The two lookup loops of [rebaseSession]: the first worktree that
    matches, in the order of the listing. *)
Definition pathMatches (target : string) (wt : Worktree) : bool :=
  String.eqb (Path wt) target || strings.HasSuffix (Path wt) target.

Definition branchMatches (target : string) (wt : Worktree) : bool :=
  String.eqb (Branch wt) target.

Definition findTarget (target : string) (worktrees : list Worktree)
  : option Worktree :=
  if isPathArg target then find (pathMatches target) worktrees
  else find (branchMatches target) worktrees.

Fixpoint printAvailable (worktrees : list Worktree) : M unit :=
  match worktrees with
  | [] => ret tt
  | wt :: rest => print (Printf_available wt) ;; printAvailable rest
  end.

(** "Determine which worktree to rebase": by argument, or interactively. *)
Definition determineTarget (args : list string) (worktrees : list Worktree)
    (currentDir : string) : M (option Worktree) :=
  match args with
  | target :: _ =>
      match findTarget target worktrees with
      | None =>
          print (Errorf_not_found target) ;;
          print Info_available ;;
          printAvailable worktrees ;;
          ret None
      | Some wt => ret (Some wt)
      end
  | [] => selectWorktreeForRebase worktrees currentDir
  end.

(** Modelled from the spec: [session.Manager.CommitAndRebaseSession] is not
    among the sources.  The single-target command runs "[stageAll], then
    [commit(message)], then [rebase(worktree.path, currentBranch)]; if commit
    fails, the rebase step is never attempted".  The three steps are the
    functions of commit.go and rebase.go above. *)
Definition CommitAndRebaseSession (worktreePath currentBranch commitMessage : string)
  : M (option error) :=
  e <- StageAll worktreePath ;;
  match e with
  | Some e => ret (Some e)
  | None =>
      e <- Commit worktreePath commitMessage ;;
      match e with
      | Some e => ret (Some e)
      | None =>
          '(_, _, err) <- RebaseCommit worktreePath currentBranch ;;
          ret err
      end
  end.

(** What [rebaseSession] does once the target is determined. *)
Definition rebaseTarget (targetWorktree : Worktree) (currentBranch : string)
  : M unit :=
  if String.eqb (Branch targetWorktree) currentBranch then
    print (Errorf_onto_itself currentBranch)
  else
    print (Infof_rebasing_onto targetWorktree currentBranch) ;;
    print Println ;;
    commitMessage <- promptForCommitMessage ;;
    if String.eqb commitMessage "" then print Error_empty_message
    else
      print Info_committing ;;
      err <- CommitAndRebaseSession (Path targetWorktree) currentBranch commitMessage ;;
      match err with
      | Some err => print (Errorf_failed err)
      | None =>
          print (Successf_rebased targetWorktree currentBranch) ;;
          print (Infof_preserved (Path targetWorktree))
      end.

(** [rebaseSession(cmd, args)] *)
Definition rebaseSession (args : list string) : M unit :=
  fun w0 =>
  (match os_Getwd w0 with
   | Err _ => print Error_getwd
   | Ok currentDir =>
   match manager_GetCurrentBranch w0 with
   | Err err => print (Errorf_current_branch err)
   | Ok currentBranch =>
   match worktreeManager_List w0 with
   | Err err => print (Errorf_list err)
   | Ok worktrees =>
       if len worktrees =? 0 then print Info_no_worktrees
       else
         t <- determineTarget args worktrees currentDir ;;
         match t with
         | None => ret tt
         | Some targetWorktree => rebaseTarget targetWorktree currentBranch
         end
   end end end) w0.

(** ** Vocabulary of the properties *)

(** The git subcommand of a command. *)
Definition verb (c : Cmd) : string := hd "" (Args c).

(** Commands that change a worktree: stage, commit, rebase (and its abort). *)
Definition mutates (c : Cmd) : bool :=
  String.eqb (verb c) "add" || String.eqb (verb c) "commit" ||
  String.eqb (verb c) "rebase".

(** The mutating commands of a trace, in order. *)
Definition mutations (t : list Cmd) : list Cmd := filter mutates t.

Definition rebaseCmd (currentBranch : string) (wt : Worktree) : Cmd :=
  git_in (Path wt) ["rebase"; currentBranch].

Definition abortCmd (wt : Worktree) : Cmd :=
  git_in (Path wt) ["rebase"; "--abort"].

Definition statusCmd (dir : string) : Cmd :=
  git_in dir ["status"; "--porcelain"].

Definition aheadCmd (dir baseBranch : string) : Cmd :=
  git_in dir ["rev-list"; "--count"; baseBranch ++ "..HEAD"].

Definition behindCmd (dir baseBranch : string) : Cmd :=
  git_in dir ["rev-list"; "--count"; "HEAD.." ++ baseBranch].

(** The run of a monadic computation from a world: its value and the world
    it leaves. *)
Definition value {A} (m : M A) (w : World) : A := fst (m w).
Definition after {A} (m : M A) (w : World) : World := snd (m w).

(** The spec's reading of the conflict test: a marker occurs in the output
    "under case-insensitive matching". *)
Definition containsFold (s marker : string) : bool :=
  strings.Contains (strings.ToLower s) (strings.ToLower marker).

Definition conflictOutputFold (outputStr : string) : bool :=
  containsFold outputStr "conflict" || containsFold outputStr "CONFLICT" ||
  containsFold outputStr "Failed to merge".

(** [marker] occurs in [s]. *)
Definition occurs (marker s : string) : Prop :=
  exists before rest, s = (before ++ marker ++ rest)%string.

(** ** Backends for concrete runs *)

Definition Cmd_eqb (a b : Cmd) : bool :=
  String.eqb (Name a) (Name b) &&
  (if list_eq_dec string_dec (Args a) (Args b) then true else false) &&
  String.eqb (Dir a) (Dir b).

(** A backend that answers from a table, whatever ran before; a command
    not in the table succeeds with empty output. *)
Fixpoint answers (table : list (Cmd * (string * option error)))
    (history : list Cmd) (c : Cmd) : string * option error :=
  match table with
  | [] => ("", None)
  | (c', r) :: rest => if Cmd_eqb c c' then r else answers rest history c
  end.

Definition world (table : list (Cmd * (string * option error)))
    (currentDir currentBranch : string) (worktrees : list Worktree)
    (input : list string) : World :=
  {| git := answers table;
     os_Getwd := Ok currentDir;
     manager_GetCurrentBranch := Ok currentBranch;
     worktreeManager_List := Ok worktrees;
     trace := [];
     stdin := input;
     stdout := [] |}.

(** Sample data of the concrete runs. *)
Definition exit1 : error := ExecError "exit status 1".
Definition exit128 : error := ExecError "exit status 128".
Definition wtMain : Worktree := mkWorktree "/repo" "main".
Definition wtA : Worktree := mkWorktree "/w/a" "a".
Definition wtB : Worktree := mkWorktree "/w/b" "b".
Definition wtC : Worktree := mkWorktree "/w/c" "c".
Definition wtDetached : Worktree := mkWorktree "/w/detached" "".

(** The rebase of /w/a stops on a content conflict, and the abort fails too. *)
Definition conflictWorld : World :=
  world [ (rebaseCmd "main" wtA,
           ("CONFLICT (content): Merge conflict in file.txt", Some exit1));
          (abortCmd wtA, ("fatal: no rebase in progress", Some exit128)) ]
        "/repo" "main" [wtMain; wtA] [].

(** The rebase of /w/a fails with a message that spells the marker in
    mixed case. *)
Definition mixedCaseWorld : World :=
  world [ (rebaseCmd "main" wtA, ("Merge Conflict in file.txt", Some exit1)) ]
        "/repo" "main" [wtMain; wtA] [].

(** The rebases of [l], run one after the other from the trace [t], all
    succeed. *)
Fixpoint rebasesSucceed (g : list Cmd -> Cmd -> string * option error)
    (t : list Cmd) (currentBranch : string) (l : list Worktree) : bool :=
  match l with
  | [] => true
  | wt :: rest =>
      match snd (g t (rebaseCmd currentBranch wt)) with
      | None => rebasesSucceed g (t ++ [rebaseCmd currentBranch wt]) currentBranch rest
      | Some _ => false
      end
  end.

Definition nl : string := String (ascii_of_nat 10) "".

(** /w/a has uncommitted changes. *)
Definition dirtyWorld : World :=
  world [ (statusCmd "/w/a", (" M file.txt" ++ nl, None)) ]
        "/repo" "main" [wtMain; wtA] [].

(** /w/a is clean, one commit ahead of main and two behind; the user
    confirms the fanout. *)
Definition divergedWorld : World :=
  world [ (aheadCmd "/w/a" "main", ("1" ++ nl, None));
          (behindCmd "/w/a" "main", ("2" ++ nl, None)) ]
        "/repo" "main" [wtMain; wtA] ["yes"].

(** The spec's scenario: A is dirty, B is clean and two behind, C is clean
    and one ahead. *)
Definition scenarioWorld : World :=
  world [ (statusCmd "/w/a", (" M file.txt" ++ nl, None));
          (aheadCmd "/w/b" "main", ("0" ++ nl, None));
          (behindCmd "/w/b" "main", ("2" ++ nl, None));
          (aheadCmd "/w/c" "main", ("1" ++ nl, None));
          (behindCmd "/w/c" "main", ("0" ++ nl, None)) ]
        "/repo" "main" [wtMain; wtA; wtB; wtC] ["yes"].

(** Three safe worktrees; the rebase of the second one conflicts. *)
Definition secondConflictsWorld : World :=
  world [ (rebaseCmd "main" wtB,
           ("CONFLICT (content): Merge conflict in file.txt", Some exit1)) ]
        "/repo" "main" [wtMain; wtA; wtB; wtC] ["yes"].

(** ** Runs

    [runs m w v t i evs]: started in [w], whatever is on the terminal
    already, [m] returns [v], leaves the trace [t] and the input [i], and
    prints [evs]. *)
Definition set_io (w : World) (t : list Cmd) (i : list string) (o : list Out)
  : World :=
  mkWorld (git w) (os_Getwd w) (manager_GetCurrentBranch w)
          (worktreeManager_List w) t i o.

Definition runs {A} (m : M A) (w : World) (v : A) (t : list Cmd)
    (i : list string) (evs : list Out) : Prop :=
  forall o, m (set_io w (trace w) (stdin w) o) = (v, set_io w t i (o ++ evs)).

(** The world in which the rest of a computation continues. *)
Definition cont (w : World) (t : list Cmd) (i : list string) : World :=
  set_io w t i (stdout w).

(** [issues P m]: every command [m] adds to the trace satisfies [P]. *)
Definition issues {A} (P : Cmd -> Prop) (m : M A) : Prop :=
  forall w, exists new, trace (after m w) = (trace w ++ new)%list /\ Forall P new.

Definition readonly (c : Cmd) : Prop := mutates c = false.

(** The plan of a fanout: the verdict of every target, in discovery order. *)
Fixpoint plan (currentBranch : string) (targetWorktrees : list Worktree)
  : M (list (Worktree * SafetyVerdict)) :=
  match targetWorktrees with
  | [] => ret []
  | wt :: rest =>
      v <- checkWorktree currentBranch wt ;;
      vs <- plan currentBranch rest ;;
      ret ((wt, v) :: vs)
  end.

Definition unsafeOf (p : list (Worktree * SafetyVerdict)) : list Worktree :=
  map fst (filter (fun e => negb (isSafe (snd e))) p).

Definition safeOf (p : list (Worktree * SafetyVerdict)) : list Worktree :=
  map fst (filter (fun e => isSafe (snd e)) p).

(** The lines that report one worktree of the plan with its verdict. *)
Definition verdictLines (currentBranch : string) (e : Worktree * SafetyVerdict)
  : list Out :=
  let wt := fst e in
  match snd e with
  | UnsafeDirty => [Printf_dirty (Branch wt) (Path wt); Println_uncommitted]
  | UnsafeError err => [Errorf_check_failed (Branch wt) err]
  | UnsafeAhead diff =>
      [Printf_ahead (Branch wt) (Path wt); Printf_ahead_by currentBranch diff]
  | Safe diff =>
      [Printf_safe (Branch wt) (Path wt);
       if diff <? 0 then Printf_behind (int_neg diff) else Println_up_to_date]
  end.

(** The progress lines of a completed and of a failed rebase. *)
Definition completedLines (currentBranch : string) (wt : Worktree) : list Out :=
  [Infof_rebasing (Branch wt) currentBranch; Successf_success].

Definition failedLines (currentBranch : string) (wt : Worktree)
    (output : string) (e : error) : list Out :=
  Infof_rebasing (Branch wt) currentBranch ::
  (if conflictOutput output
   then [Errorf_conflict_aborted; Errorf_stopped_conflict (Branch wt); Info_resolve]
   else [Errorf_rebase_error (ErrRebaseFailed e output); Errorf_stopped (Branch wt)]).

Definition isSuccessLine (o : Out) : bool :=
  match o with Successf_success => true | _ => false end.

Definition isStoppedLine (o : Out) : bool :=
  match o with
  | Errorf_stopped_conflict _ | Errorf_stopped _ => true
  | _ => false
  end.

Definition isRebasingLine (o : Out) : bool :=
  match o with Infof_rebasing _ _ => true | _ => false end.

Definition count (f : Out -> bool) (evs : list Out) : nat := length (filter f evs).

(** [target] begins with the character [c]. *)
Definition beginsWith (c : ascii) (target : string) : Prop :=
  exists rest, target = String c rest.

(** [s] ends with [suffix]. *)
Definition endsWith (suffix s : string) : Prop :=
  exists before, s = (before ++ suffix)%string.

(** [x] is the first element of [l] that satisfies [P]. *)
Definition firstWith {A} (P : A -> Prop) (l : list A) (x : A) : Prop :=
  exists before rest, l = (before ++ x :: rest)%list /\ P x /\ Forall (fun y => ~ P y) before.

(** [returns Q m]: whatever the world, the value of [m] satisfies [Q]. *)
Definition returns {A} (Q : A -> Prop) (m : M A) : Prop :=
  forall w, Q (value m w).

(** The argument of the rebase command reads as a path. *)
Definition isPath (target : string) : Prop :=
  beginsWith "/" target \/ beginsWith "." target \/ beginsWith "~" target.

(** The argument [target] selects the worktree [wt]: a path argument by
    equality with the path or as a suffix of it, any other argument by
    equality with the branch name. *)
Definition selects (target : string) (wt : Worktree) : Prop :=
  (isPath target /\ (Path wt = target \/ endsWith target (Path wt))) \/
  (~ isPath target /\ Branch wt = target).

(** A worktree the fanout filter lets through. *)
Definition fanoutCandidate (currentDir currentBranch : string) (wt : Worktree)
  : Prop :=
  Path wt <> currentDir /\ Branch wt <> "" /\ Branch wt <> currentBranch.

(** A worktree the interactive selector lets through. *)
Definition selectorCandidate (currentDir : string) (wt : Worktree) : Prop :=
  Path wt <> currentDir /\ Branch wt <> "".

(** A detached worktree next to the main one; the user types a commit
    message. *)
Definition detachedWorld : World :=
  world [] "/repo" "main" [wtMain; wtDetached] ["wip"].

(** Two worktrees; the user types a blank commit message. *)
Definition blankMessageWorld : World :=
  world [] "/repo" "main" [wtMain; wtA] ["   "].

(** Two worktrees, nothing typed. *)
Definition quietWorld : World :=
  world [] "/repo" "main" [wtMain; wtA] [].

(** The main worktree, a detached one and /w/a; the user picks entry 1 of
    the selector and types a commit message. *)
Definition pickFirstWorld : World :=
  world [] "/repo" "main" [wtMain; wtDetached; wtA] ["1"; "wip"].

(** ** Package cmd: display names *)

(** [strings.Split(s, sep)] for a separator of one byte: the fields between
    the separators; the empty string has the one field "". *)
Fixpoint strings_Split (s : string) (sep : ascii) : list string :=
  match s with
  | EmptyString => [EmptyString]
  | String c s' =>
      if Ascii.eqb c sep then EmptyString :: strings_Split s' sep
      else match strings_Split s' sep with
           | field :: fields => String c field :: fields
           | [] => [String c EmptyString]
           end
  end.

(** [filepath.Separator] on Unix. *)
Definition filepath_Separator : ascii := "/"%char.

Fixpoint trimTrailingSeparators (path : string) : string :=
  match path with
  | EmptyString => EmptyString
  | String c path' =>
      let t := trimTrailingSeparators path' in
      if Ascii.eqb c filepath_Separator && String.eqb t "" then "" else String c t
  end.

(** [filepath.Base(path)] on Unix: the last element of the path, without
    trailing separators; "." for the empty path and "/" for a path of
    separators only. *)
Definition filepath_Base (path : string) : string :=
  if String.eqb path "" then "."
  else
    let path := trimTrailingSeparators path in
    let path := last (strings_Split path filepath_Separator) "" in
    if String.eqb path "" then String filepath_Separator "" else path.

(** The loop of [getWorktreeDisplayName] over [parts], at index [i] with
    [rest] still to visit; [None] when the loop ends without a return. *)
Fixpoint sessionPart (parts : list string) (i : nat) (rest : list string)
  : option string :=
  match rest with
  | [] => None
  | part :: rest' =>
      if String.eqb part ".ccswitch" && (i + 2 <? length parts)%nat
      then Some (nth (i + 2) parts "")
      else sessionPart parts (S i) rest'
  end.

(** [getWorktreeDisplayName(wt, currentDir)] *)
Definition getWorktreeDisplayName (wt : Worktree) (currentDir : string) : string :=
  let found :=
    if strings.Contains (Path wt) ".ccswitch/worktrees/" then
      let parts := strings_Split (Path wt) filepath_Separator in
      sessionPart parts 0 parts
    else None in
  match found with
  | Some name => name
  | None =>
      if negb (String.eqb (Branch wt) "") then Branch wt
      else filepath_Base (Path wt)
  end.

(** ** Vocabulary of the further properties *)

(** The elements of a path. *)
Definition elements (path : string) : list string :=
  strings_Split path filepath_Separator.

(** [s] is white space only: a sequence of encodings of white-space
    runes. *)
Inductive blank : string -> Prop :=
| blank_empty : blank ""
| blank_rune (e s : string) :
    In e strings.spaceRunes -> blank s -> blank (e ++ s).

(** [s] has something that is not white space. *)
Definition hasText (s : string) : Prop := ~ blank s.

(** [quiet m]: [m] runs from every world and leaves the input alone. *)
Definition quiet {A} (m : M A) : Prop :=
  forall w, exists v t evs, runs m w v t (stdin w) evs.

(** [prints P m]: every line [m] adds to the output satisfies [P]. *)
Definition prints {A} (P : Out -> Prop) (m : M A) : Prop :=
  forall w, exists evs, stdout (after m w) = (stdout w ++ evs)%list /\ Forall P evs.

(** The commands of a fanout over the targets [ts]: the status and the two
    history queries of a target, its rebase and the abort of its rebase. *)
Definition fanoutCommand (currentBranch : string) (ts : list Worktree) (c : Cmd)
  : Prop :=
  exists wt, In wt ts /\
    (c = statusCmd (Path wt) \/ c = aheadCmd (Path wt) currentBranch \/
     c = behindCmd (Path wt) currentBranch \/ c = rebaseCmd currentBranch wt \/
     c = abortCmd wt).

(** The two messages of [fanoutBranches] behind tests that cannot hold. *)
Definition unreachableLine (o : Out) : Prop :=
  o = Info_nothing_to_fanout \/ o = Errorf_rebase_failed.

(** The answer typed to "Continue? (yes/no)". *)
Definition confirmation (w : World) : string := value Scanln w.

(** Three worktrees, two of them fanout targets, all clean and level with
    main; the user confirms in capitals. *)
Definition allSafeWorld : World :=
  world [] "/repo" "main" [wtMain; wtA; wtB] ["YES"].

(** The same worktrees; the user declines. *)
Definition declinedWorld : World :=
  world [] "/repo" "main" [wtMain; wtA; wtB] ["no"].

(** Only the main worktree. *)
Definition aloneWorld : World :=
  world [] "/repo" "main" [wtMain] [].

(** /w/a is clean, three commits ahead of main and one behind. *)
Definition aheadWorld : World :=
  world [ (aheadCmd "/w/a" "main", ("3" ++ nl, None));
          (behindCmd "/w/a" "main", ("1" ++ nl, None)) ]
        "/repo" "main" [wtMain; wtA] [].


(** The rebase of /w/a fails without a conflict marker. *)
Definition otherFailureWorld : World :=
  world [ (rebaseCmd "main" wtA, ("fatal: invalid upstream", Some exit128)) ]
        "/repo" "main" [wtMain; wtA] [].

(** The selector is answered with "q". *)
Definition quitWorld : World :=
  world [] "/repo" "main" [wtMain; wtA; wtB] ["q"].

(** The selector is answered with the number 2. *)
Definition pickSecondWorld : World :=
  world [] "/repo" "main" [wtMain; wtA; wtB] [" 2 "].

(** A ccswitch session worktree and a manually created one. *)
Definition wtSession : Worktree :=
  mkWorktree "/home/u/.ccswitch/worktrees/proj/fix-login" "feature/fix-login".

(** The number and the worktree of a line of the selector's list. *)
Definition entry (o : Out) : option (Z * Worktree) :=
  match o with
  | Printf_entry _ i wt => Some (i, wt)
  | _ => None
  end.

(** The worktrees [ws] numbered from [n] on. *)
Fixpoint numberFrom (n : Z) (ws : list Worktree) : list (Z * Worktree) :=
  match ws with
  | [] => []
  | wt :: rest => (n, wt) :: numberFrom (n + 1) rest
  end.

(** ** internal/git/repository.go: the repository name *)

(** [git.GetRepoName(dir)] *)
Definition GetRepoName (dir : string) : M (result string) :=
  '(output, err) <- CombinedOutput (git_in dir ["rev-parse"; "--show-toplevel"]) ;;
  match err with
  | Some e => ret (Err e)
  | None =>
      let repoPath := strings.TrimSpace output in
      ret (Ok (filepath_Base repoPath))
  end.

(** The toplevel query of /w/a answers with the path of the repository. *)
Definition toplevelWorld : World :=
  world [ (git_in "/w/a" ["rev-parse"; "--show-toplevel"],
           ("/home/u/proj" ++ nl, None)) ]
        "/repo" "main" [wtMain; wtA] [].

(** [sorts cur ts w u s]: checked one after the other from the world [w],
    the worktrees of [ts] with a verdict that is not safe are [u] and those
    with a safe verdict are [s], each kept in the order of [ts]. *)
Inductive sorts (currentBranch : string)
  : list Worktree -> World -> list Worktree -> list Worktree -> Prop :=
| sorts_nil w : sorts currentBranch [] w [] []
| sorts_safe wt rest w u s :
    isSafe (value (checkWorktree currentBranch wt) w) = true ->
    sorts currentBranch rest (after (checkWorktree currentBranch wt) w) u s ->
    sorts currentBranch (wt :: rest) w u (wt :: s)
| sorts_unsafe wt rest w u s :
    isSafe (value (checkWorktree currentBranch wt) w) = false ->
    sorts currentBranch rest (after (checkWorktree currentBranch wt) w) u s ->
    sorts currentBranch (wt :: rest) w (wt :: u) s.


(** ** Reading the report of a fanout

    What a reader of the terminal output can tell about the worktrees of a
    fanout, from the lines alone. *)

(** The worktrees the plan lists as safe, as (branch, path), in order. *)
Definition safeListed (evs : list Out) : list (string * string) :=
  flat_map (fun o => match o with
                     | Printf_safe branch path => [(branch, path)]
                     | _ => []
                     end) evs.

(** The branches of the "Rebasing ..." lines of the progress, in order. *)
Definition started (evs : list Out) : list string :=
  flat_map (fun o => match o with
                     | Infof_rebasing branch _ => [branch]
                     | _ => []
                     end) evs.

(** The branches the "Fanout stopped at ..." lines name. *)
Definition stoppedAt (evs : list Out) : list string :=
  flat_map (fun o => match o with
                     | Errorf_stopped_conflict branch | Errorf_stopped branch => [branch]
                     | _ => []
                     end) evs.

(** Completed: the started branches that have a success line. *)
Definition completedIn (evs : list Out) : list string :=
  firstn (count isSuccessLine evs) (started evs).

(** Not attempted: the worktrees listed as safe for which no rebase was
    started. *)
Definition notAttemptedIn (evs : list Out) : list (string * string) :=
  skipn (length (started evs)) (safeListed evs).

(** How the plan lists a worktree. *)
Definition listing (wt : Worktree) : string * string := (Branch wt, Path wt).


(** * Properties *)

(** ** Strings *)

Lemma HasPrefix_spec (p s : string) :
  strings.HasPrefix s p = true <-> exists rest, s = (p ++ rest)%string.
Proof.
  revert s; induction p as [|c p IH]; intros s; simpl.
  - split; [intros _; now exists s | reflexivity].
  - destruct s as [|d s].
    + split; [discriminate | intros [r H]; discriminate].
    + rewrite andb_true_iff, Ascii.eqb_eq, IH. split.
      * intros [-> [r ->]]. now exists r.
      * intros [r H]. injection H as -> ->. split; [reflexivity | now exists r].
Qed.

Lemma HasSuffix_spec (suffix s : string) :
  strings.HasSuffix s suffix = true <-> endsWith suffix s.
Proof.
  unfold endsWith. induction s as [|c s IH]; cbn [strings.HasSuffix].
  - rewrite orb_false_r, String.eqb_eq. split.
    + intros <-. now exists "".
    + intros [[|b bs] H]; simpl in H; [assumption | discriminate].
  - rewrite orb_true_iff, String.eqb_eq, IH. split.
    + intros [<- | [b ->]]; [now exists "" | now exists (String c b)].
    + intros [[|b bs] H]; simpl in H.
      * now left.
      * injection H as -> ->. right. now exists bs.
Qed.

Lemma Contains_spec (marker s : string) :
  strings.Contains s marker = true <-> occurs marker s.
Proof.
  unfold occurs. induction s as [|c s IH].
  - simpl. rewrite orb_false_r, HasPrefix_spec. split.
    + intros [r ->]. now exists "", r.
    + intros [[|b bs] [r H]]; simpl in H; [now exists r | discriminate].
  - cbn [strings.Contains]. rewrite orb_true_iff, HasPrefix_spec, IH. split.
    + intros [[r ->] | [b [r ->]]]; [now exists "", r | now exists (String c b), r].
    + intros [[|b bs] [r H]]; simpl in H.
      * left. now exists r.
      * injection H as -> ->. right. now exists bs, r.
Qed.

Lemma conflictOutput_spec (output : string) :
  conflictOutput output = true <->
  occurs "conflict" output \/ occurs "CONFLICT" output \/
  occurs "Failed to merge" output.
Proof.
  unfold conflictOutput.
  rewrite !orb_true_iff, !Contains_spec. tauto.
Qed.

Lemma beginsWith_spec (c : ascii) (target : string) :
  strings.HasPrefix target (String c "") = true <-> beginsWith c target.
Proof. rewrite HasPrefix_spec. reflexivity. Qed.

Lemma isPathArg_spec (target : string) :
  isPathArg target = true <->
  beginsWith "/" target \/ beginsWith "." target \/ beginsWith "~" target.
Proof.
  unfold isPathArg, filepath_IsAbs.
  rewrite !orb_true_iff, !beginsWith_spec. tauto.
Qed.

(** ** Runs of the primitives *)

Lemma world_eta (w : World) : set_io w (trace w) (stdin w) (stdout w) = w.
Proof. now destruct w. Qed.

Lemma runs_here {A} (m : M A) w v t i evs :
  runs m w v t i evs -> m w = (v, set_io w t i (stdout w ++ evs)).
Proof. intros H. rewrite <- (world_eta w) at 1. apply H. Qed.

Lemma runs_value {A} (m : M A) w v t i evs :
  runs m w v t i evs -> value m w = v.
Proof. intros H. unfold value. now rewrite (runs_here _ _ _ _ _ _ H). Qed.

Lemma runs_after {A} (m : M A) w v t i evs :
  runs m w v t i evs -> after m w = set_io w t i (stdout w ++ evs).
Proof. intros H. unfold after. now rewrite (runs_here _ _ _ _ _ _ H). Qed.

Lemma runs_ret {A} (a : A) w : runs (ret a) w a (trace w) (stdin w) [].
Proof. intros o. unfold ret. now rewrite app_nil_r. Qed.

Lemma runs_print (e : Out) w : runs (print e) w tt (trace w) (stdin w) [e].
Proof. intros o. reflexivity. Qed.

Lemma runs_ret_at {A} (a : A) w t i :
  t = trace w -> i = stdin w -> runs (ret a) w a t i [].
Proof. intros -> ->. apply runs_ret. Qed.

Lemma runs_print_at (e : Out) w t i :
  t = trace w -> i = stdin w -> runs (print e) w tt t i [e].
Proof. intros -> ->. apply runs_print. Qed.

Lemma runs_CombinedOutput (c : Cmd) w :
  runs (CombinedOutput c) w (git w (trace w) c) (trace w ++ [c]) (stdin w) [].
Proof. intros o. unfold CombinedOutput, with_trace, set_io. cbn. now rewrite app_nil_r. Qed.

Lemma runs_bind {A B} (m : M A) (k : A -> M B) w v t i evs v' t' i' evs' :
  runs m w v t i evs ->
  runs (k v) (cont w t i) v' t' i' evs' ->
  runs (bind m k) w v' t' i' (evs ++ evs').
Proof.
  intros Hm Hk o. unfold bind. rewrite (Hm o).
  specialize (Hk (o ++ evs)%list). unfold cont, set_io in *. cbn in *.
  rewrite Hk. now rewrite app_assoc.
Qed.

Lemma runs_bind_silent {A B} (m : M A) (k : A -> M B) w v t i v' t' i' evs' :
  runs m w v t i [] ->
  runs (k v) (cont w t i) v' t' i' evs' ->
  runs (bind m k) w v' t' i' evs'.
Proof. intros Hm Hk. exact (runs_bind _ _ _ _ _ _ _ _ _ _ _ Hm Hk). Qed.

Lemma runs_eq {A} (m : M A) w v t i evs t' evs' :
  runs m w v t i evs -> t = t' -> evs = evs' -> runs m w v t' i evs'.
Proof. now intros H <- <-. Qed.

(** What a run does not depend on: the terminal output so far. *)
Lemma runs_cont {A} (m : M A) w o v t i evs :
  runs m (set_io w (trace w) (stdin w) o) v t i evs <-> runs m w v t i evs.
Proof. split; intros H o'; apply (H o'). Qed.

Lemma runs_ScanLine w :
  runs ScanLine w (hd_error (stdin w)) (trace w) (tl (stdin w)) [].
Proof.
  intros o. unfold ScanLine, with_stdin, set_io. cbn.
  destruct (stdin w); cbn; now rewrite app_nil_r.
Qed.

(** Two runs of one computation from one world agree. *)
Lemma runs_unique {A} (m : M A) w v1 t1 i1 e1 v2 t2 i2 e2 :
  runs m w v1 t1 i1 e1 -> runs m w v2 t2 i2 e2 ->
  v1 = v2 /\ t1 = t2 /\ i1 = i2 /\ e1 = e2.
Proof.
  intros H1 H2. specialize (H1 []). specialize (H2 []).
  rewrite H1 in H2. unfold set_io in H2. cbn in H2.
  injection H2 as -> -> -> ->. auto.
Qed.

(** ** Commands a computation issues *)

Lemma issues_ret {A} P (a : A) : issues P (ret a).
Proof. intros w. exists []. cbn. now rewrite app_nil_r. Qed.

Lemma issues_print P (e : Out) : issues P (print e).
Proof. intros w. exists []. cbn. now rewrite app_nil_r. Qed.

Lemma issues_ScanLine P : issues P ScanLine.
Proof.
  intros w. exists []. unfold after, ScanLine.
  destruct (stdin w); cbn; now rewrite app_nil_r.
Qed.

Lemma issues_CombinedOutput (P : Cmd -> Prop) (c : Cmd) :
  P c -> issues P (CombinedOutput c).
Proof. intros H w. exists [c]. cbn. auto. Qed.

Lemma issues_bind {A B} P (m : M A) (k : A -> M B) :
  issues P m -> (forall a, issues P (k a)) -> issues P (bind m k).
Proof.
  intros Hm Hk w. destruct (Hm w) as [n1 [E1 F1]].
  unfold after, bind in *.
  destruct (m w) as [a w1] eqn:E. cbn in E1.
  destruct (Hk a w1) as [n2 [E2 F2]]. unfold after in E2.
  exists (n1 ++ n2)%list. split.
  - rewrite E2, E1. now rewrite app_assoc.
  - apply Forall_app; auto.
Qed.

Lemma issues_weaken {A} (P Q : Cmd -> Prop) (m : M A) :
  (forall c, P c -> Q c) -> issues P m -> issues Q m.
Proof.
  intros HPQ Hm w. destruct (Hm w) as [n [E F]].
  exists n. split; [assumption|].
  eapply Forall_impl; [|exact F]. auto.
Qed.

Lemma issues_readonly {A} (m : M A) w :
  issues readonly m -> mutations (trace (after m w)) = mutations (trace w).
Proof.
  intros H. destruct (H w) as [n [-> F]].
  unfold mutations. rewrite filter_app.
  replace (filter mutates n) with (@nil Cmd); [now rewrite app_nil_r|].
  induction F as [|c n Hc _ IH]; [reflexivity|].
  cbn. unfold readonly in Hc. now rewrite Hc.
Qed.

Ltac issues_step :=
  first
    [ apply issues_ret
    | apply issues_print
    | apply issues_ScanLine
    | apply issues_CombinedOutput
    | apply issues_bind; [|intros ?]
    | match goal with
      | |- issues _ (let '(_, _) := ?x in _) => destruct x
      | |- issues _ (match ?x with _ => _ end) => destruct x
      end ].

Lemma issues_HasUncommittedChanges P dir :
  P (statusCmd dir) -> issues P (HasUncommittedChanges dir).
Proof. intros H. unfold HasUncommittedChanges. repeat issues_step. exact H. Qed.

Lemma issues_GetCurrentBranch P dir :
  P (git_in dir ["branch"; "--show-current"]) -> issues P (GetCurrentBranch dir).
Proof. intros H. unfold GetCurrentBranch. repeat issues_step. exact H. Qed.

Lemma issues_GetCommitCountDifference (P : Cmd -> Prop) dir base :
  P (aheadCmd dir base) -> P (behindCmd dir base) ->
  issues P (GetCommitCountDifference dir base).
Proof.
  intros Ha Hb. unfold GetCommitCountDifference.
  repeat issues_step; assumption.
Qed.

(** The queries of one safety check go to that worktree and change nothing. *)
Lemma issues_checkWorktree cur wt :
  issues (fun c => readonly c /\ Dir c = Path wt) (checkWorktree cur wt).
Proof.
  unfold checkWorktree.
  apply issues_bind; [apply issues_HasUncommittedChanges; now split|intros dirty].
  destruct dirty; [repeat issues_step|].
  apply issues_bind;
    [apply issues_GetCommitCountDifference; now split|intros r].
  repeat issues_step.
Qed.

(** ** The rebase unit *)

Lemma rebaseWorktree_runs w dir onto :
  match git w (trace w) (git_in dir ["rebase"; onto]) with
  | (_, None) =>
      runs (rebaseWorktree dir onto) w (true, false, None)
           (trace w ++ [git_in dir ["rebase"; onto]]) (stdin w) []
  | (output, Some e) =>
      if conflictOutput output then
        runs (rebaseWorktree dir onto) w (false, true, Some ErrConflictAborted)
             (trace w ++ [git_in dir ["rebase"; onto]; git_in dir ["rebase"; "--abort"]])
             (stdin w) []
      else
        runs (rebaseWorktree dir onto) w
             (false, false, Some (ErrRebaseFailed e output))
             (trace w ++ [git_in dir ["rebase"; onto]]) (stdin w) []
  end.
Proof.
  destruct (git w (trace w) (git_in dir ["rebase"; onto])) as [output [e|]] eqn:E;
    [destruct (conflictOutput output) eqn:C|];
    intros o; unfold rebaseWorktree, abortRebaseInWorktree, Run, bind,
      CombinedOutput, ret, with_trace, set_io; cbn; rewrite E; cbn;
    rewrite ?C; cbn; rewrite ?app_nil_r, <- ?app_assoc; reflexivity.
Qed.

Lemma RebaseCommit_runs w dir onto :
  match git w (trace w) (git_in dir ["rebase"; onto]) with
  | (_, None) =>
      runs (RebaseCommit dir onto) w (true, false, None)
           (trace w ++ [git_in dir ["rebase"; onto]]) (stdin w) []
  | (output, Some e) =>
      if conflictOutput output then
        runs (RebaseCommit dir onto) w (false, true, Some ErrConflictAborted)
             (trace w ++ [git_in dir ["rebase"; onto]; git_in dir ["rebase"; "--abort"]])
             (stdin w) []
      else
        runs (RebaseCommit dir onto) w
             (false, false, Some (ErrRebaseFailed e output))
             (trace w ++ [git_in dir ["rebase"; onto]]) (stdin w) []
  end.
Proof.
  destruct (git w (trace w) (git_in dir ["rebase"; onto])) as [output [e|]] eqn:E;
    [destruct (conflictOutput output) eqn:C|];
    intros o; unfold RebaseCommit, AbortRebase, bind,
      CombinedOutput, ret, with_trace, set_io; cbn; rewrite E; cbn;
    rewrite ?C; cbn;
    try destruct (git w _ (git_in dir ["rebase"; "--abort"])) as [ao [ae|]];
    cbn; rewrite ?app_nil_r, <- ?app_assoc; reflexivity.
Qed.

(** C4, as amended.  A failed rebase is reported as a conflict exactly when
    its combined output contains one of the markers "conflict", "CONFLICT"
    or "Failed to merge" as they are spelled (the match is case-sensitive);
    a failed rebase without a marker yields the error that wraps the
    backend error and the captured output, both unchanged.  This holds for
    [rebaseWorktree] and for [RebaseCommit]. *)
Theorem rebase_failure_is_conflict_iff_marker w dir onto output e :
  git w (trace w) (git_in dir ["rebase"; onto]) = (output, Some e) ->
  let marked :=
    occurs "conflict" output \/ occurs "CONFLICT" output \/
    occurs "Failed to merge" output in
  (value (rebaseWorktree dir onto) w = (false, true, Some ErrConflictAborted)
   <-> marked) /\
  (value (RebaseCommit dir onto) w = (false, true, Some ErrConflictAborted)
   <-> marked) /\
  (~ marked ->
   value (rebaseWorktree dir onto) w
     = (false, false, Some (ErrRebaseFailed e output)) /\
   value (RebaseCommit dir onto) w
     = (false, false, Some (ErrRebaseFailed e output))).
Proof.
  intros E marked.
  pose proof (rebaseWorktree_runs w dir onto) as Hw.
  pose proof (RebaseCommit_runs w dir onto) as Hc.
  rewrite E in Hw, Hc.
  assert (M : conflictOutput output = true <-> marked)
    by apply conflictOutput_spec.
  destruct (conflictOutput output);
    rewrite (runs_value _ _ _ _ _ _ Hw), (runs_value _ _ _ _ _ _ Hc).
  - assert (marked) by now apply M. tauto.
  - assert (~ marked) by (intros H; apply M in H; discriminate).
    repeat split; try tauto; discriminate.
Qed.

(** C5.  When a failed rebase is classified as a conflict, the rebase is
    followed by exactly one abort in the same worktree and by nothing else,
    and the conflict is what is returned, whatever the backend answers to
    the abort. *)
Theorem conflict_is_aborted_once_and_reported w dir onto output e abortAnswer :
  git w (trace w) (git_in dir ["rebase"; onto]) = (output, Some e) ->
  conflictOutput output = true ->
  git w (trace w ++ [git_in dir ["rebase"; onto]]) (git_in dir ["rebase"; "--abort"])
    = abortAnswer ->
  (value (rebaseWorktree dir onto) w = (false, true, Some ErrConflictAborted) /\
   trace (after (rebaseWorktree dir onto) w)
     = (trace w ++ [git_in dir ["rebase"; onto]; git_in dir ["rebase"; "--abort"]])%list) /\
  (value (RebaseCommit dir onto) w = (false, true, Some ErrConflictAborted) /\
   trace (after (RebaseCommit dir onto) w)
     = (trace w ++ [git_in dir ["rebase"; onto]; git_in dir ["rebase"; "--abort"]])%list).
Proof.
  intros E C _.
  pose proof (rebaseWorktree_runs w dir onto) as Hw.
  pose proof (RebaseCommit_runs w dir onto) as Hc.
  rewrite E, C in Hw, Hc.
  rewrite (runs_value _ _ _ _ _ _ Hw), (runs_value _ _ _ _ _ _ Hc),
    (runs_after _ _ _ _ _ _ Hw), (runs_after _ _ _ _ _ _ Hc).
  repeat split.
Qed.

Lemma conflict_is_aborted_once_and_reported_witness :
  git conflictWorld (trace conflictWorld) (git_in "/w/a" ["rebase"; "main"])
    = ("CONFLICT (content): Merge conflict in file.txt", Some exit1) /\
  git conflictWorld [git_in "/w/a" ["rebase"; "main"]] (git_in "/w/a" ["rebase"; "--abort"])
    = ("fatal: no rebase in progress", Some exit128) /\
  (value (rebaseWorktree "/w/a" "main") conflictWorld
     = (false, true, Some ErrConflictAborted) /\
   trace (after (rebaseWorktree "/w/a" "main") conflictWorld)
     = [git_in "/w/a" ["rebase"; "main"]; git_in "/w/a" ["rebase"; "--abort"]]) /\
  (value (RebaseCommit "/w/a" "main") conflictWorld
     = (false, true, Some ErrConflictAborted) /\
   trace (after (RebaseCommit "/w/a" "main") conflictWorld)
     = [git_in "/w/a" ["rebase"; "main"]; git_in "/w/a" ["rebase"; "--abort"]]).
Proof.
  split; [reflexivity|]. split; [reflexivity|].
  apply (conflict_is_aborted_once_and_reported conflictWorld "/w/a" "main"
           "CONFLICT (content): Merge conflict in file.txt" exit1
           ("fatal: no rebase in progress", Some exit128));
    reflexivity.
Defined.

Lemma rebase_failure_is_conflict_iff_marker_witness :
  git conflictWorld (trace conflictWorld) (git_in "/w/a" ["rebase"; "main"])
    = ("CONFLICT (content): Merge conflict in file.txt", Some exit1) /\
  (value (rebaseWorktree "/w/a" "main") conflictWorld
     = (false, true, Some ErrConflictAborted) <->
   occurs "conflict" "CONFLICT (content): Merge conflict in file.txt" \/
   occurs "CONFLICT" "CONFLICT (content): Merge conflict in file.txt" \/
   occurs "Failed to merge" "CONFLICT (content): Merge conflict in file.txt").
Proof.
  split; [reflexivity|].
  apply (rebase_failure_is_conflict_iff_marker conflictWorld "/w/a" "main"
           "CONFLICT (content): Merge conflict in file.txt" exit1).
  reflexivity.
Defined.

(** C4, as stated, fails: the output "Merge Conflict in file.txt" contains
    the marker "conflict" under case-insensitive matching, and the failed
    rebase is not classified as a conflict. *)
Lemma mixed_case_marker_is_not_a_conflict :
  git mixedCaseWorld (trace mixedCaseWorld) (git_in "/w/a" ["rebase"; "main"])
    = ("Merge Conflict in file.txt", Some exit1) /\
  conflictOutputFold "Merge Conflict in file.txt" = true /\
  value (rebaseWorktree "/w/a" "main") mixedCaseWorld
    = (false, false, Some (ErrRebaseFailed exit1 "Merge Conflict in file.txt")) /\
  value (RebaseCommit "/w/a" "main") mixedCaseWorld
    = (false, false, Some (ErrRebaseFailed exit1 "Merge Conflict in file.txt")).
Proof. repeat split. Qed.

(** ** The safety evaluator *)

Ltac ask_git o e :=
  match goal with
  | |- context [git ?w ?t ?c] => destruct (git w t c) as [o [e|]]; cbn
  end.

Lemma checkWorktree_runs cur wt w :
  exists v t, runs (checkWorktree cur wt) w v t (stdin w) (verdictLines cur (wt, v)).
Proof.
  unfold runs, checkWorktree, HasUncommittedChanges, GetCommitCountDifference,
    bind, CombinedOutput, print, ret, with_trace, with_stdout, set_io. cbn.
  ask_git so se.
  2: destruct (negb (strings.TrimSpace so =? "")%string); cbn.
  2: { exists UnsafeDirty. eexists. intros o. rewrite <- app_assoc. reflexivity. }
  all: ask_git ao ae.
  1, 3: exists (UnsafeError ae); eexists; intros o; reflexivity.
  all: ask_git bo be.
  1, 3: exists (UnsafeError be); eexists; intros o; reflexivity.
  all: match goal with |- context [0 <? ?d] =>
         destruct (0 <? d);
         [exists (UnsafeAhead d) | exists (Safe d); destruct (d <? 0) eqn:B]
       end; cbn;
    eexists; intros o; rewrite <- !app_assoc; cbn; rewrite ?B; reflexivity.
Qed.

(** C6.  The checks of one worktree run in order and the first match
    decides: a dirty worktree is UnsafeDirty after the status query alone,
    no history query is issued; a clean worktree whose divergence query
    fails is UnsafeError; only a clean worktree whose divergence query
    succeeds reaches the ahead check. *)
Theorem safety_checks_short_circuit cur wt w :
  let w1 := after (HasUncommittedChanges (Path wt)) w in
  (value (HasUncommittedChanges (Path wt)) w = true ->
   value (checkWorktree cur wt) w = UnsafeDirty /\
   trace (after (checkWorktree cur wt) w) = (trace w ++ [statusCmd (Path wt)])%list) /\
  (value (HasUncommittedChanges (Path wt)) w = false ->
   (forall e, value (GetCommitCountDifference (Path wt) cur) w1 = Err e ->
              value (checkWorktree cur wt) w = UnsafeError e) /\
   (forall diff, value (GetCommitCountDifference (Path wt) cur) w1 = Ok diff ->
                 value (checkWorktree cur wt) w
                   = if 0 <? diff then UnsafeAhead diff else Safe diff)).
Proof.
  unfold value, after, checkWorktree, HasUncommittedChanges,
    GetCommitCountDifference, bind, CombinedOutput, print, ret, with_trace,
    with_stdout, statusCmd. cbn.
  ask_git so se.
  2: destruct (negb (strings.TrimSpace so =? "")%string); cbn.
  2: { split; [auto | discriminate]. }
  all: split; [discriminate | intros _].
  all: ask_git ao ae.
  1, 3: split; [intros e [= <-]; reflexivity | discriminate].
  all: ask_git bo be.
  1, 3: split; [intros e [= <-]; reflexivity | discriminate].
  all: split; [discriminate | intros diff [= <-]].
  all: match goal with |- context [0 <? ?d] =>
         destruct (0 <? d); [|destruct (d <? 0)]
       end; reflexivity.
Qed.

Lemma safety_checks_short_circuit_witness :
  value (HasUncommittedChanges "/w/a") dirtyWorld = true /\
  value (checkWorktree "main" wtA) dirtyWorld = UnsafeDirty /\
  trace (after (checkWorktree "main" wtA) dirtyWorld) = [statusCmd "/w/a"].
Proof.
  split; [reflexivity|].
  apply (proj1 (safety_checks_short_circuit "main" wtA dirtyWorld)).
  reflexivity.
Defined.

(** C1: the code at the failing input.  /w/a is clean, its ahead count is 1
    and its behind count is 2.  The ahead check sees only the difference
    -1: the worktree is judged safe, reported as "Behind by 1 commit(s)",
    and the fanout rebases it. *)
Theorem diverged_worktree_is_judged_safe :
  value (HasUncommittedChanges "/w/a") divergedWorld = false /\
  git divergedWorld [statusCmd "/w/a"] (aheadCmd "/w/a" "main") = ("1" ++ nl, None) /\
  parseCount (strings.TrimSpace ("1" ++ nl)) = 1 /\
  git divergedWorld [statusCmd "/w/a"; aheadCmd "/w/a" "main"] (behindCmd "/w/a" "main")
    = ("2" ++ nl, None) /\
  parseCount (strings.TrimSpace ("2" ++ nl)) = 2 /\
  value (checkWorktree "main" wtA) divergedWorld = Safe (-1) /\
  stdout (after (checkWorktree "main" wtA) divergedWorld)
    = [Printf_safe "a" "/w/a"; Printf_behind 1] /\
  mutations (trace (after fanoutBranches divergedWorld)) = [rebaseCmd "main" wtA].
Proof. repeat split. Qed.

(** ** The plan and the refusal *)

Lemma runs_print_then {A} (e : Out) (k : M A) w v t i evs :
  runs k w v t i evs -> runs (bind (print e) (fun _ => k)) w v t i (e :: evs).
Proof.
  intros H o. unfold bind, print, with_stdout, set_io. cbn.
  specialize (H (o ++ [e])%list). unfold set_io in H. cbn in H.
  rewrite H. now rewrite <- app_assoc.
Qed.

Lemma unsafeOf_cons wt v vs :
  unsafeOf ((wt, v) :: vs) = if isSafe v then unsafeOf vs else wt :: unsafeOf vs.
Proof. unfold unsafeOf. cbn. now destruct (isSafe v). Qed.

Lemma safeOf_cons wt v vs :
  safeOf ((wt, v) :: vs) = if isSafe v then wt :: safeOf vs else safeOf vs.
Proof. unfold safeOf. cbn. now destruct (isSafe v). Qed.

(** The safety loop runs the plan: same queries, same lines, and its two
    accumulators receive the unsafe branches and the safe worktrees. *)
Lemma plan_runs cur ts :
  forall w, exists vs t,
    runs (plan cur ts) w vs t (stdin w) (flat_map (verdictLines cur) vs) /\
    map fst vs = ts /\
    forall u s,
      runs (safetyChecks cur ts u s) w
           (u ++ map Branch (unsafeOf vs), s ++ safeOf vs)%list
           t (stdin w) (flat_map (verdictLines cur) vs).
Proof.
  induction ts as [|wt rest IH]; intros w.
  - exists [], (trace w). split; [apply runs_ret|]. split; [reflexivity|].
    intros u s. cbn. rewrite !app_nil_r. apply runs_ret.
  - destruct (checkWorktree_runs cur wt w) as [v [t1 Hv]].
    destruct (IH (cont w t1 (stdin w))) as [vs [t2 [Hp [Hm Hs]]]].
    exists ((wt, v) :: vs), t2. split; [|split].
    + cbn [plan flat_map]. eapply runs_bind; [exact Hv|].
      rewrite <- (app_nil_r (flat_map _ vs)).
      eapply runs_bind; [exact Hp|]. now apply runs_ret_at.
    + cbn. now rewrite Hm.
    + intros u s. cbn [safetyChecks flat_map].
      eapply runs_bind; [exact Hv|].
      rewrite unsafeOf_cons, safeOf_cons.
      destruct (isSafe v).
      * specialize (Hs u (s ++ [wt])%list). rewrite <- app_assoc in Hs. exact Hs.
      * specialize (Hs (u ++ [Branch wt])%list s). rewrite <- app_assoc in Hs. exact Hs.
Qed.

Lemma issues_plan cur ts :
  issues (fun c => readonly c /\ exists wt, In wt ts /\ Dir c = Path wt)
         (plan cur ts).
Proof.
  induction ts as [|wt rest IH]; cbn [plan]; [apply issues_ret|].
  apply issues_bind.
  - eapply issues_weaken; [|apply issues_checkWorktree].
    intros c [R D]. split; [assumption|]. exists wt. split; [now left|assumption].
  - intros v. apply issues_bind; [|intros; apply issues_ret].
    eapply issues_weaken; [|exact IH].
    intros c [R [x [I D]]]. split; [assumption|]. exists x. split; [now right|assumption].
Qed.

Lemma len_pos {A} (l : list A) : l <> [] -> (0 <? len l) = true.
Proof.
  intros H. destruct l; [congruence|]. unfold len. cbn [length].
  apply Z.ltb_lt. lia.
Qed.

Lemma len_nonzero {A} (l : list A) : l <> [] -> (len l =? 0) = false.
Proof.
  intros H. destruct l; [congruence|]. unfold len. cbn [length].
  apply Z.eqb_neq. lia.
Qed.

Lemma len_map {A B} (f : A -> B) (l : list A) : len (map f l) = len l.
Proof. unfold len. now rewrite length_map. Qed.

(** With an unsafe worktree in the plan, [fanoutOnto] stops after
    the report. *)
Lemma fanoutOnto_refused cur ts w vs t :
  runs (plan cur ts) w vs t (stdin w) (flat_map (verdictLines cur) vs) ->
  unsafeOf vs <> [] ->
  runs (fanoutOnto cur ts) w tt t (stdin w)
       ([Title_plan; Infof_source cur; Infof_targets (len ts); Println] ++
        flat_map (verdictLines cur) vs ++
        [Println; Errorf_cannot_fanout (len (unsafeOf vs)); Info_fix_issues]).
Proof.
  intros Hp Hu.
  destruct (plan_runs cur ts w) as [vs' [t' [Hp' [_ Hs]]]].
  destruct (runs_unique _ _ _ _ _ _ _ _ _ _ Hp Hp') as [<- [<- _]].
  specialize (Hs [] []). cbn [app] in Hs.
  unfold fanoutOnto. cbn [app].
  do 4 apply runs_print_then.
  eapply runs_bind; [exact Hs|].
  cbn beta iota. apply runs_print_then.
  rewrite len_map, (len_pos _ Hu).
  apply runs_print_then. now apply runs_print_at.
Qed.

(** C2.  When the plan of a fanout holds at least one unsafe worktree
    (dirty, ahead, or failed inspection), the command stops after the plan:
    the only commands it has issued are the status and divergence queries
    of the plan, none of them a stage, commit or rebase; the confirmation
    is not asked; and the output lists every worktree of the plan with the
    lines of its verdict, followed by the refusal. *)
Theorem unsafe_plan_refuses_fanout w currentDir currentBranch worktrees :
  os_Getwd w = Ok currentDir ->
  manager_GetCurrentBranch w = Ok currentBranch ->
  worktreeManager_List w = Ok worktrees ->
  let targets := filter (fanoutTarget currentDir currentBranch) worktrees in
  let verdicts := value (plan currentBranch targets) w in
  unsafeOf verdicts <> [] ->
  mutations (trace (after fanoutBranches w)) = mutations (trace w) /\
  trace (after fanoutBranches w) = trace (after (plan currentBranch targets) w) /\
  stdin (after fanoutBranches w) = stdin w /\
  stdout (after fanoutBranches w)
    = (stdout w ++
       [Title_plan; Infof_source currentBranch; Infof_targets (len targets); Println] ++
       flat_map (verdictLines currentBranch) verdicts ++
       [Println; Errorf_cannot_fanout (len (unsafeOf verdicts)); Info_fix_issues])%list.
Proof.
  intros Hd Hb Hl targets verdicts Hu.
  destruct (plan_runs currentBranch targets w) as [vs [t [Hp [Hm _]]]].
  assert (Ev : verdicts = vs) by (apply (runs_value _ _ _ _ _ _ Hp)).
  rewrite Ev in *.
  assert (Ht : targets <> []).
  { intros E. rewrite E in Hm. destruct vs; [now apply Hu | discriminate]. }
  assert (R : runs fanoutBranches w tt t (stdin w)
                ([Title_plan; Infof_source currentBranch;
                  Infof_targets (len targets); Println] ++
                 flat_map (verdictLines currentBranch) vs ++
                 [Println; Errorf_cannot_fanout (len (unsafeOf vs)); Info_fix_issues])).
  { intros o. unfold fanoutBranches. cbn [os_Getwd manager_GetCurrentBranch
      worktreeManager_List set_io]. rewrite Hd, Hb, Hl.
    fold targets. rewrite (len_nonzero _ Ht).
    apply (fanoutOnto_refused _ _ _ _ _ Hp Hu). }
  pose proof (issues_readonly (plan currentBranch targets) w) as Hro.
  rewrite (runs_after _ _ _ _ _ _ R).
  rewrite (runs_after _ _ _ _ _ _ Hp) in *.
  cbn [trace stdin stdout set_io] in *.
  repeat split.
  apply Hro. eapply issues_weaken; [|apply issues_plan]. now intros c [H _].
Qed.

Lemma unsafe_plan_refuses_fanout_witness :
  unsafeOf (value (plan "main" [wtA; wtB; wtC]) scenarioWorld) = [wtA; wtC] /\
  mutations (trace (after fanoutBranches scenarioWorld)) = [] /\
  trace (after fanoutBranches scenarioWorld)
    = [statusCmd "/w/a";
       statusCmd "/w/b"; aheadCmd "/w/b" "main"; behindCmd "/w/b" "main";
       statusCmd "/w/c"; aheadCmd "/w/c" "main"; behindCmd "/w/c" "main"] /\
  stdin (after fanoutBranches scenarioWorld) = ["yes"] /\
  stdout (after fanoutBranches scenarioWorld)
    = [Title_plan; Infof_source "main"; Infof_targets 3; Println;
       Printf_dirty "a" "/w/a"; Println_uncommitted;
       Printf_safe "b" "/w/b"; Printf_behind 2;
       Printf_ahead "c" "/w/c"; Printf_ahead_by "main" 1;
       Println; Errorf_cannot_fanout 2; Info_fix_issues].
Proof.
  split; [reflexivity|].
  apply (unsafe_plan_refuses_fanout scenarioWorld "/repo" "main"
           [wtMain; wtA; wtB; wtC]); try reflexivity.
  cbv. discriminate.
Defined.

(** ** The fanout loop *)

Lemma rebasesSucceed_cons g t cur x l :
  rebasesSucceed g t cur (x :: l) = true ->
  snd (g t (rebaseCmd cur x)) = None /\
  rebasesSucceed g (t ++ [rebaseCmd cur x]) cur l = true.
Proof.
  cbn [rebasesSucceed]. destruct (snd (g t (rebaseCmd cur x))); [discriminate|].
  auto.
Qed.

Lemma fanoutLoop_stops cur completed :
  forall w n wt rest output e,
    rebasesSucceed (git w) (trace w) cur completed = true ->
    git w (trace w ++ map (rebaseCmd cur) completed) (rebaseCmd cur wt)
      = (output, Some e) ->
    runs (fanoutLoop cur (completed ++ wt :: rest) n) w None
         (trace w ++ map (rebaseCmd cur) completed ++
          rebaseCmd cur wt :: (if conflictOutput output then [abortCmd wt] else []))
         (stdin w)
         (flat_map (completedLines cur) completed ++ failedLines cur wt output e).
Proof.
  induction completed as [|x completed IH]; intros w n wt rest output e Hs He.
  - cbn [app map flat_map fanoutLoop] in *. rewrite app_nil_r in He.
    unfold failedLines. apply runs_print_then.
    pose proof (rebaseWorktree_runs w (Path wt) cur) as Hr.
    unfold rebaseCmd, abortCmd in *. rewrite He in Hr.
    destruct (conflictOutput output);
      (eapply runs_bind_silent; [exact Hr|]); cbn beta iota.
    + do 3 apply runs_print_then. now apply runs_ret_at.
    + do 2 apply runs_print_then. now apply runs_ret_at.
  - apply rebasesSucceed_cons in Hs. destruct Hs as [Hx Hs].
    cbn [app map flat_map fanoutLoop completedLines].
    apply runs_print_then.
    pose proof (rebaseWorktree_runs w (Path x) cur) as Hr.
    unfold rebaseCmd in Hx. destruct (git w (trace w) _) as [ox [ex|]];
      [discriminate|].
    eapply runs_bind_silent; [exact Hr|]. cbn beta iota. cbn [negb].
    apply runs_print_then.
    specialize (IH (cont w (trace w ++ [rebaseCmd cur x]) (stdin w)) (n + 1) wt rest output e).
    cbn [cont set_io git trace stdin] in IH.
    rewrite <- !app_assoc in IH. cbn [app] in IH.
    apply IH; assumption.
Qed.

Lemma count_completed cur f l rest :
  (forall wt, count f (completedLines cur wt) = 1%nat) ->
  count f (flat_map (completedLines cur) l ++ rest) = (length l + count f rest)%nat.
Proof.
  intros H. unfold count in *. induction l as [|x l IH]; [reflexivity|].
  cbn [flat_map length]. rewrite <- app_assoc, filter_app, length_app.
  rewrite H, IH. reflexivity.
Qed.

Lemma count_none_completed cur f l rest :
  (forall wt, count f (completedLines cur wt) = 0%nat) ->
  count f (flat_map (completedLines cur) l ++ rest) = count f rest.
Proof.
  intros H. unfold count in *. induction l as [|x l IH]; [reflexivity|].
  cbn [flat_map length]. rewrite <- app_assoc, filter_app, length_app.
  rewrite H, IH. reflexivity.
Qed.

Lemma all_safe vs : unsafeOf vs = [] -> safeOf vs = map fst vs.
Proof.
  induction vs as [|[wt v] vs IH]; [reflexivity|].
  rewrite unsafeOf_cons, safeOf_cons. destruct (isSafe v); [|discriminate].
  intros H. cbn. now rewrite IH.
Qed.

Lemma runs_Scanln w :
  runs Scanln w (confirmation w) (trace w) (tl (stdin w)) [].
Proof.
  intros o. unfold confirmation, value, Scanln, bind, ScanLine, ret,
    with_stdin, set_io. cbn.
  destruct (stdin w); cbn; now rewrite app_nil_r.
Qed.

Lemma confirmation_stdin w w' : stdin w' = stdin w -> confirmation w' = confirmation w.
Proof.
  intros H. unfold confirmation, value, Scanln, bind, ScanLine, ret. cbn.
  rewrite H. now destruct (stdin w).
Qed.

(** The run of [fanoutOnto] over targets that are all safe, up to the
    answer to the confirmation. *)
Lemma fanoutOnto_asks cur ts w vs t v' t' i' evs' :
  runs (plan cur ts) w vs t (stdin w) (flat_map (verdictLines cur) vs) ->
  ts <> [] -> unsafeOf vs = [] ->
  runs ((if negb (String.eqb (strings.ToLower (confirmation w)) "yes")
         then print Info_cancelled
         else
           print Title_progress ;;
           print Println ;;
           r <- fanoutLoop cur ts 0 ;;
           match r with
           | None => ret tt
           | Some successCount =>
               print Println ;;
               print Title_complete ;;
               print (Successf_fanned_out successCount) ;;
               if 0 <? successCount then print (Infof_synchronized cur)
               else ret tt
           end))
       (cont w t (tl (stdin w))) v' t' i' evs' ->
  runs (fanoutOnto cur ts) w v' t' i'
       ([Title_plan; Infof_source cur; Infof_targets (len ts); Println] ++
        flat_map (verdictLines cur) vs ++
        [Println; Title_ready; Warningf_will_rebase (len ts) cur;
         Info_will_preserve; Println; Print_continue] ++ evs').
Proof.
  intros Hp Hn Hu Hrest.
  destruct (plan_runs cur ts w) as [vs' [t0 [Hp' [Hm Hs]]]].
  destruct (runs_unique _ _ _ _ _ _ _ _ _ _ Hp Hp') as [<- [<- _]].
  specialize (Hs [] []). cbn [app] in Hs.
  rewrite Hu, (all_safe _ Hu), Hm in Hs. cbn [map] in Hs.
  unfold fanoutOnto. cbn [app].
  do 4 apply runs_print_then.
  eapply runs_bind; [exact Hs|].
  cbn beta iota. cbn [app]. apply runs_print_then.
  change (0 <? len (@nil string)) with false. cbn iota.
  rewrite (len_nonzero _ Hn).
  do 5 apply runs_print_then.
  eapply runs_bind_silent.
  { apply (runs_eq _ _ _ _ _ _ _ _ (runs_Scanln (cont w t (stdin w))));
      reflexivity. }
  rewrite (confirmation_stdin w (cont w t (stdin w)) eq_refl).
  exact Hrest.
Qed.

Lemma fanoutBranches_onto w currentDir currentBranch worktrees :
  os_Getwd w = Ok currentDir ->
  manager_GetCurrentBranch w = Ok currentBranch ->
  worktreeManager_List w = Ok worktrees ->
  filter (fanoutTarget currentDir currentBranch) worktrees <> [] ->
  fanoutBranches w
  = fanoutOnto currentBranch
      (filter (fanoutTarget currentDir currentBranch) worktrees) w.
Proof.
  intros Hd Hb Hl Hn. unfold fanoutBranches. rewrite Hd, Hb, Hl.
  now rewrite (len_nonzero _ Hn).
Qed.

Lemma count_app f a b : count f (a ++ b) = (count f a + count f b)%nat.
Proof. unfold count. now rewrite filter_app, length_app. Qed.

Lemma mutations_rebases cur l :
  mutations (map (rebaseCmd cur) l) = map (rebaseCmd cur) l.
Proof.
  unfold mutations. induction l as [|x l IH]; [reflexivity|].
  cbn [map]. change (filter mutates (rebaseCmd cur x :: map (rebaseCmd cur) l))
    with (rebaseCmd cur x :: filter mutates (map (rebaseCmd cur) l)).
  now rewrite IH.
Qed.

(** The lines of a plan whose verdicts are all safe list every worktree,
    and none of them is a line of the progress. *)
Lemma read_plan cur vs :
  unsafeOf vs = [] ->
  safeListed (flat_map (verdictLines cur) vs) = map listing (map fst vs) /\
  started (flat_map (verdictLines cur) vs) = [] /\
  stoppedAt (flat_map (verdictLines cur) vs) = [] /\
  count isSuccessLine (flat_map (verdictLines cur) vs) = 0%nat.
Proof.
  unfold safeListed, started, stoppedAt.
  induction vs as [|[x v] vs IH]; [now repeat split|].
  rewrite unsafeOf_cons. destruct v as [| | |diff]; try discriminate.
  cbn [isSafe]. intros Hu. destruct (IH Hu) as [H1 [H2 [H3 H4]]].
  cbn [flat_map]. rewrite !flat_map_app, count_app, H1, H2, H3, H4.
  unfold verdictLines, listing. cbn [fst snd].
  destruct (diff <? 0); repeat split.
Qed.

(** The lines of the progress that stops at [wt]. *)
Lemma read_progress cur completed wt output e :
  let progress :=
    (flat_map (completedLines cur) completed ++ failedLines cur wt output e)%list in
  safeListed progress = [] /\
  started progress = (map Branch completed ++ [Branch wt])%list /\
  stoppedAt progress = [Branch wt] /\
  count isSuccessLine progress = length completed.
Proof.
  cbv zeta. unfold safeListed, started, stoppedAt.
  induction completed as [|x l [H1 [H2 [H3 H4]]]].
  - unfold failedLines. cbn [flat_map app map length].
    destruct (conflictOutput output); now repeat split.
  - cbn [flat_map map length completedLines app].
    rewrite H1, H2, H3. repeat split.
    unfold count in *. cbn [filter isSuccessLine length]. now rewrite H4.
Qed.

Lemma firstn_map_app {A} (l r : list A) : firstn (length l) (l ++ r) = l.
Proof. induction l; cbn; [now destruct r|congruence]. Qed.

Lemma skipn_app_cons {A} (l : list A) x r :
  skipn (length (l ++ [x])) (l ++ x :: r) = r.
Proof. induction l; cbn; auto. Qed.

(** C3.  In a fanout over targets that are all safe and that the user
    confirms, when the rebases of [completed] succeed and the rebase of the
    next target [wt] is the first to fail, the command stops at [wt].  The
    commands it issues after the queries of the plan are the rebases of
    [completed] and of [wt], in discovery order, followed by one abort of
    [wt] when the failure is a conflict, and nothing else: nothing is
    undone in [completed] and nothing is issued for [notAttempted].  The
    report tells the three groups apart: the progress has a "Rebasing" and
    a success line for each of [completed], the "Rebasing" line and the
    failure lines that name [wt], and no line and no summary after them,
    so that the worktrees the plan lists as safe and the progress never
    starts are [notAttempted]. *)
Theorem fanout_stops_at_first_failure
    w currentDir currentBranch worktrees completed wt notAttempted output e :
  os_Getwd w = Ok currentDir ->
  manager_GetCurrentBranch w = Ok currentBranch ->
  worktreeManager_List w = Ok worktrees ->
  let targets := filter (fanoutTarget currentDir currentBranch) worktrees in
  let verdicts := value (plan currentBranch targets) w in
  let planned := trace (after (plan currentBranch targets) w) in
  targets = (completed ++ wt :: notAttempted)%list ->
  unsafeOf verdicts = [] ->
  strings.ToLower (confirmation w) = "yes" ->
  rebasesSucceed (git w) planned currentBranch completed = true ->
  git w (planned ++ map (rebaseCmd currentBranch) completed)%list
      (rebaseCmd currentBranch wt)
    = (output, Some e) ->
  let attempted :=
    (map (rebaseCmd currentBranch) completed ++
     rebaseCmd currentBranch wt ::
     (if conflictOutput output then [abortCmd wt] else []))%list in
  let report :=
    ([Title_plan; Infof_source currentBranch; Infof_targets (len targets); Println] ++
     flat_map (verdictLines currentBranch) verdicts ++
     [Println; Title_ready; Warningf_will_rebase (len targets) currentBranch;
      Info_will_preserve; Println; Print_continue; Title_progress; Println] ++
     flat_map (completedLines currentBranch) completed ++
     failedLines currentBranch wt output e)%list in
  trace (after fanoutBranches w) = (planned ++ attempted)%list /\
  mutations (trace (after fanoutBranches w))
    = (mutations (trace w) ++ attempted)%list /\
  stdout (after fanoutBranches w) = (stdout w ++ report)%list /\
  completedIn report = map Branch completed /\
  stoppedAt report = [Branch wt] /\
  notAttemptedIn report = map listing notAttempted.
Proof.
  intros Hd Hb Hl targets verdicts planned Ht Hu Hy Hs He attempted report.
  assert (Hn : targets <> []) by (rewrite Ht; now destruct completed).
  destruct (plan_runs currentBranch targets w) as [vs [t [Hp [Hm _]]]].
  pose proof (issues_readonly (plan currentBranch targets) w) as Hro.
  unfold report, attempted, verdicts, planned in *.
  rewrite (runs_value _ _ _ _ _ _ Hp) in *.
  rewrite (runs_after _ _ _ _ _ _ Hp) in *. cbn [trace set_io] in *.
  assert (R : runs (fanoutOnto currentBranch targets) w tt
                (t ++ map (rebaseCmd currentBranch) completed ++
                 rebaseCmd currentBranch wt ::
                 (if conflictOutput output then [abortCmd wt] else []))
                (tl (stdin w))
                ([Title_plan; Infof_source currentBranch;
                  Infof_targets (len targets); Println] ++
                 flat_map (verdictLines currentBranch) vs ++
                 [Println; Title_ready; Warningf_will_rebase (len targets) currentBranch;
                  Info_will_preserve; Println; Print_continue] ++
                 (Title_progress :: Println ::
                  flat_map (completedLines currentBranch) completed ++
                  failedLines currentBranch wt output e))).
  { eapply fanoutOnto_asks; [exact Hp|exact Hn|exact Hu|].
    rewrite Hy. change ("yes" =? "yes")%string with true.
    cbn [negb]. do 2 apply runs_print_then.
    rewrite <- (app_nil_r (flat_map _ completed ++ failedLines _ _ _ _)).
    eapply runs_bind.
    { rewrite Ht.
      apply (fanoutLoop_stops currentBranch completed
               (cont w t (tl (stdin w))) 0 wt notAttempted output e);
        [exact Hs|exact He]. }
    cbn beta iota. now apply runs_ret_at. }
  unfold after at 1 2 3. rewrite (fanoutBranches_onto _ _ _ _ Hd Hb Hl Hn).
  fold targets. rewrite (runs_here _ _ _ _ _ _ R). cbn [snd trace stdin stdout set_io].
  destruct (read_plan currentBranch vs Hu) as [P1 [P2 [P3 P4]]].
  destruct (read_progress currentBranch completed wt output e) as [Q1 [Q2 [Q3 Q4]]].
  rewrite Hm, Ht in P1.
  split; [reflexivity|]. split; [|split; [reflexivity|]].
  - unfold mutations in *. rewrite filter_app. f_equal.
    + apply Hro. eapply issues_weaken; [|apply issues_plan]. now intros c [H _].
    + rewrite filter_app. fold (mutations (map (rebaseCmd currentBranch) completed)).
      rewrite mutations_rebases. f_equal.
      now destruct (conflictOutput output).
  - set (progress := (flat_map (completedLines currentBranch) completed ++
                      failedLines currentBranch wt output e)%list) in *.
    clearbody progress.
    unfold completedIn, notAttemptedIn.
    unfold safeListed, started, stoppedAt in *.
    rewrite !count_app, !flat_map_app, P1, P2, P3, P4, Q1, Q2, Q3, Q4.
    cbn [flat_map app count filter isSuccessLine length Nat.add].
    rewrite app_nil_r. rewrite <- (length_map Branch completed) at 1.
    rewrite firstn_map_app. repeat split.
    rewrite map_app. cbn [map].
    replace (length (map Branch completed ++ [Branch wt]))
      with (length (map listing completed ++ [listing wt]))
      by (rewrite !length_app, !length_map; reflexivity).
    apply skipn_app_cons.
Qed.

Lemma fanout_stops_at_first_failure_witness :
  let w := secondConflictsWorld in
  let planned :=
    [statusCmd "/w/a"; aheadCmd "/w/a" "main"; behindCmd "/w/a" "main";
     statusCmd "/w/b"; aheadCmd "/w/b" "main"; behindCmd "/w/b" "main";
     statusCmd "/w/c"; aheadCmd "/w/c" "main"; behindCmd "/w/c" "main"] in
  unsafeOf (value (plan "main" [wtA; wtB; wtC]) w) = [] /\
  strings.ToLower (confirmation w) = "yes" /\
  rebasesSucceed (git w) planned "main" [wtA] = true /\
  git w (planned ++ [rebaseCmd "main" wtA])%list (rebaseCmd "main" wtB)
    = ("CONFLICT (content): Merge conflict in file.txt", Some exit1) /\
  trace (after fanoutBranches w)
    = (planned ++ [rebaseCmd "main" wtA; rebaseCmd "main" wtB; abortCmd wtB])%list /\
  mutations (trace (after fanoutBranches w))
    = [rebaseCmd "main" wtA; rebaseCmd "main" wtB; abortCmd wtB] /\
  stdout (after fanoutBranches w)
    = [Title_plan; Infof_source "main"; Infof_targets 3; Println;
       Printf_safe "a" "/w/a"; Println_up_to_date;
       Printf_safe "b" "/w/b"; Println_up_to_date;
       Printf_safe "c" "/w/c"; Println_up_to_date;
       Println; Title_ready; Warningf_will_rebase 3 "main"; Info_will_preserve;
       Println; Print_continue; Title_progress; Println;
       Infof_rebasing "a" "main"; Successf_success;
       Infof_rebasing "b" "main"; Errorf_conflict_aborted;
       Errorf_stopped_conflict "b"; Info_resolve] /\
  completedIn (stdout (after fanoutBranches w)) = ["a"] /\
  stoppedAt (stdout (after fanoutBranches w)) = ["b"] /\
  notAttemptedIn (stdout (after fanoutBranches w)) = [("c", "/w/c")].
Proof.
  intros w planned.
  split; [reflexivity|]. split; [reflexivity|]. split; [reflexivity|].
  split; [reflexivity|].
  destruct (fanout_stops_at_first_failure w "/repo" "main" [wtMain; wtA; wtB; wtC]
              [wtA] wtB [wtC] "CONFLICT (content): Merge conflict in file.txt" exit1
              eq_refl eq_refl eq_refl eq_refl eq_refl eq_refl eq_refl eq_refl)
    as [Ht [Hm [Ho [Hc [Hf Hn]]]]].
  split; [exact Ht|]. split; [exact Hm|]. split; [exact Ho|].
  rewrite Ho. split; [exact Hc|]. split; [exact Hf|exact Hn].
Defined.

(** ** Values a computation returns *)

Lemma returns_ret {A} (Q : A -> Prop) (a : A) : Q a -> returns Q (ret a).
Proof. intros H w. exact H. Qed.

Lemma returns_bind {A B} (Q : B -> Prop) (m : M A) (k : A -> M B) :
  (forall a, returns Q (k a)) -> returns Q (bind m k).
Proof.
  intros H w. unfold value, bind. destruct (m w) as [a w1] eqn:E.
  apply (H a w1).
Qed.

Lemma value_bind {A B} (m : M A) (k : A -> M B) w :
  value (bind m k) w = value (k (value m w)) (after m w).
Proof. unfold value, after, bind. now destruct (m w). Qed.

Lemma after_bind {A B} (m : M A) (k : A -> M B) w :
  after (bind m k) w = after (k (value m w)) (after m w).
Proof. unfold value, after, bind. now destruct (m w). Qed.

(** A bind whose continuation is constrained by what its head returns. *)
Lemma issues_bind_where {A B} P (Q : A -> Prop) (m : M A) (k : A -> M B) :
  issues P m -> returns Q m -> (forall a, Q a -> issues P (k a)) ->
  issues P (bind m k).
Proof.
  intros Hm Hq Hk w. destruct (Hm w) as [n1 [E1 F1]].
  destruct (Hk _ (Hq w) (after m w)) as [n2 [E2 F2]].
  exists (n1 ++ n2)%list. split.
  - rewrite after_bind, E2, E1. now rewrite app_assoc.
  - apply Forall_app; auto.
Qed.

(** ** The filters *)

Lemma fanoutTarget_spec currentDir currentBranch wt :
  fanoutTarget currentDir currentBranch wt = true <->
  fanoutCandidate currentDir currentBranch wt.
Proof.
  unfold fanoutTarget, fanoutCandidate.
  rewrite !andb_true_iff, !negb_true_iff, !String.eqb_neq. tauto.
Qed.

Lemma rebaseCandidate_spec currentDir wt :
  rebaseCandidate currentDir wt = true <-> selectorCandidate currentDir wt.
Proof.
  unfold rebaseCandidate, selectorCandidate.
  rewrite !andb_true_iff, !negb_true_iff, !String.eqb_neq. tauto.
Qed.

Lemma issues_safetyChecks cur ts :
  forall u s,
    issues (fun c => readonly c /\ exists wt, In wt ts /\ Dir c = Path wt)
           (safetyChecks cur ts u s).
Proof.
  induction ts as [|wt rest IH]; intros u s; cbn [safetyChecks];
    [apply issues_ret|].
  apply issues_bind.
  - eapply issues_weaken; [|apply issues_checkWorktree].
    intros c [R D]. split; [assumption|]. exists wt. split; [now left|assumption].
  - intros v. destruct (isSafe v);
      (eapply issues_weaken; [|apply IH]);
      intros c [R [x [I D]]]; (split; [assumption|]); exists x;
      (split; [now right|assumption]).
Qed.

Lemma issues_rebaseWorktree (P : Cmd -> Prop) dir onto :
  P (git_in dir ["rebase"; onto]) -> P (git_in dir ["rebase"; "--abort"]) ->
  issues P (rebaseWorktree dir onto).
Proof.
  intros Hr Ha. unfold rebaseWorktree, abortRebaseInWorktree, Run.
  repeat issues_step; assumption.
Qed.

Lemma issues_fanoutLoop cur safe :
  forall n, issues (fun c => exists wt, In wt safe /\ Dir c = Path wt)
                   (fanoutLoop cur safe n).
Proof.
  induction safe as [|wt rest IH]; intros n; cbn [fanoutLoop];
    [apply issues_ret|].
  apply issues_bind; [apply issues_print|intros _].
  apply issues_bind.
  - apply issues_rebaseWorktree; exists wt; (split; [now left|reflexivity]).
  - intros [[success hasConflict] [e|]].
    + destruct hasConflict; repeat issues_step.
    + destruct (negb success); [repeat issues_step|].
      apply issues_bind; [apply issues_print|intros _].
      eapply issues_weaken; [|apply IH].
      intros c [x [I D]]. exists x. split; [now right|assumption].
Qed.

(** The safe worktrees the safety loop hands to the fanout loop are among
    its targets. *)
Lemma safetyChecks_returns cur ts :
  returns (fun r => forall wt, In wt (snd r) -> In wt ts)
          (safetyChecks cur ts [] []).
Proof.
  intros w. destruct (plan_runs cur ts w) as [vs [t [_ [Hm Hs]]]].
  rewrite (runs_value _ _ _ _ _ _ (Hs [] [])). cbn [snd app].
  intros wt H. rewrite <- Hm. unfold safeOf in H.
  apply in_map_iff in H. destruct H as [e [<- H]].
  apply filter_In in H. apply in_map. tauto.
Qed.

Lemma issues_fanoutOnto cur ts :
  issues (fun c => exists wt, In wt ts /\ Dir c = Path wt) (fanoutOnto cur ts).
Proof.
  unfold fanoutOnto.
  do 4 (apply issues_bind; [apply issues_print|intros _]).
  eapply issues_bind_where.
  - eapply issues_weaken; [|apply issues_safetyChecks]. now intros c [_ H].
  - apply safetyChecks_returns.
  - intros [unsafe safe] Hsafe. cbn [snd] in Hsafe.
    apply issues_bind; [apply issues_print|intros _].
    destruct (0 <? len unsafe); [repeat issues_step|].
    destruct (len safe =? 0); [repeat issues_step|].
    do 5 (apply issues_bind; [apply issues_print|intros _]).
    apply issues_bind; [unfold Scanln; repeat issues_step|intros confirm].
    destruct (negb _); [apply issues_print|].
    do 2 (apply issues_bind; [apply issues_print|intros _]).
    apply issues_bind.
    + eapply issues_weaken; [|apply issues_fanoutLoop].
      intros c [x [I D]]. exists x. split; [now apply Hsafe|assumption].
    + intros [n|]; [|apply issues_ret].
      do 3 (apply issues_bind; [apply issues_print|intros _]).
      destruct (0 <? n); [apply issues_print|apply issues_ret].
Qed.

(** ** The rebase command: choosing the target *)

Lemma issues_showEntries cur ws :
  forall i, issues (fun c => readonly c /\ exists wt, In wt ws /\ Dir c = Path wt)
                   (showEntries cur i ws).
Proof.
  induction ws as [|wt rest IH]; intros i; cbn [showEntries];
    [apply issues_ret|].
  assert (Hin : forall c, readonly c /\ Dir c = Path wt ->
                          readonly c /\ exists x, In x (wt :: rest) /\ Dir c = Path x).
  { intros c [R D]. split; [assumption|]. exists wt. split; [now left|assumption]. }
  apply issues_bind;
    [apply issues_HasUncommittedChanges; now apply Hin|intros dirty].
  apply issues_bind.
  - destruct dirty; [apply issues_print|].
    apply issues_bind;
      [apply issues_GetCommitCountDifference; now apply Hin|intros r].
    repeat issues_step.
  - intros _. eapply issues_weaken; [|apply IH].
    intros c [R [x [I D]]]. split; [assumption|]. exists x. split; [now right|assumption].
Qed.

Lemma issues_selectWorktreeForRebase worktrees currentDir :
  issues (fun c => readonly c /\
                   (Dir c = currentDir \/
                    exists wt, In wt (filter (rebaseCandidate currentDir) worktrees) /\
                               Dir c = Path wt))
         (selectWorktreeForRebase worktrees currentDir).
Proof.
  unfold selectWorktreeForRebase.
  destruct (len _ =? 0); [repeat issues_step|].
  apply issues_bind;
    [apply issues_GetCurrentBranch; split; [reflexivity|now left]|intros cb].
  do 2 (apply issues_bind; [apply issues_print|intros _]).
  apply issues_bind.
  - eapply issues_weaken; [|apply issues_showEntries].
    intros c [R H]. split; [assumption|now right].
  - intros _. do 2 (apply issues_bind; [apply issues_print|intros _]).
    apply issues_bind; [apply issues_ScanLine|intros [text|]];
      [|apply issues_ret].
    destruct (_ || _); [apply issues_ret|].
    destruct (fmt.Sscanf_d _) as [choice|]; [|repeat issues_step].
    destruct (_ || _); repeat issues_step.
Qed.

Lemma selectWorktreeForRebase_returns worktrees currentDir :
  returns (fun r => forall wt, r = Some wt ->
                     In wt (filter (rebaseCandidate currentDir) worktrees))
          (selectWorktreeForRebase worktrees currentDir).
Proof.
  unfold selectWorktreeForRebase.
  destruct (len _ =? 0).
  { apply returns_bind. intros _. apply returns_ret. discriminate. }
  do 7 (apply returns_bind; intros ?).
  destruct a5 as [text|]; [|apply returns_ret; discriminate].
  destruct (_ || _); [apply returns_ret; discriminate|].
  destruct (fmt.Sscanf_d _) as [choice|];
    [|apply returns_bind; intros _; apply returns_ret; discriminate].
  destruct (_ || _);
    [apply returns_bind; intros _; apply returns_ret; discriminate|].
  apply returns_ret. intros wt H. eapply nth_error_In. exact H.
Qed.

Lemma issues_printAvailable P ws : issues P (printAvailable ws).
Proof. induction ws; cbn [printAvailable]; repeat issues_step. assumption. Qed.

(** Choosing the target changes no worktree. *)
Lemma issues_determineTarget args worktrees currentDir :
  issues readonly (determineTarget args worktrees currentDir).
Proof.
  unfold determineTarget. destruct args as [|target rest].
  - eapply issues_weaken; [|apply issues_selectWorktreeForRebase].
    now intros c [R _].
  - destruct (findTarget target worktrees); [apply issues_ret|].
    do 2 (apply issues_bind; [apply issues_print|intros _]).
    apply issues_bind; [apply issues_printAvailable|intros _; apply issues_ret].
Qed.

(** With an argument, choosing the target issues no command, reads no
    input, and prints only when nothing matches. *)
Lemma determineTarget_by_argument target rest worktrees currentDir w :
  runs (determineTarget (target :: rest) worktrees currentDir) w
       (findTarget target worktrees) (trace w) (stdin w)
       match findTarget target worktrees with
       | Some _ => []
       | None => Errorf_not_found target :: Info_available ::
                 map Printf_available worktrees
       end.
Proof.
  unfold determineTarget. destruct (findTarget target worktrees).
  - apply runs_ret.
  - do 2 apply runs_print_then.
    assert (H : forall ws w', runs (bind (printAvailable ws) (fun _ => ret (@None Worktree)))
                          w' None (trace w') (stdin w') (map Printf_available ws)).
    { induction ws as [|x ws IH]; intros w'; cbn [printAvailable map].
      - eapply runs_bind_silent; [apply runs_ret|]. now apply runs_ret_at.
      - intros o. specialize (IH w' (o ++ [Printf_available x])%list).
        unfold bind, print, with_stdout, set_io in *. cbn in *.
        rewrite IH. now rewrite <- app_assoc. }
    apply H.
Qed.

Lemma determineTarget_nil args currentDir w :
  value (determineTarget args [] currentDir) w = None.
Proof.
  destruct args as [|target rest]; [reflexivity|].
  unfold determineTarget, findTarget. now destruct (isPathArg target).
Qed.

(** ** The rebase command: rejections *)

Lemma rebaseSession_unfold args w currentDir currentBranch worktrees :
  os_Getwd w = Ok currentDir ->
  manager_GetCurrentBranch w = Ok currentBranch ->
  worktreeManager_List w = Ok worktrees ->
  worktrees <> [] ->
  rebaseSession args w
  = bind (determineTarget args worktrees currentDir)
         (fun t => match t with
                   | None => ret tt
                   | Some targetWorktree => rebaseTarget targetWorktree currentBranch
                   end) w.
Proof.
  intros Hd Hb Hl Hn. unfold rebaseSession. rewrite Hd, Hb, Hl.
  now rewrite (len_nonzero _ Hn).
Qed.

(** C8.  When the worktree chosen for the rebase command, by argument or
    interactively, is on the current branch, the command prints the
    self-rebase error and returns: nothing is staged, committed or rebased,
    and no commit message is asked for. *)
Theorem self_rebase_is_rejected w args currentDir currentBranch worktrees wt :
  os_Getwd w = Ok currentDir ->
  manager_GetCurrentBranch w = Ok currentBranch ->
  worktreeManager_List w = Ok worktrees ->
  value (determineTarget args worktrees currentDir) w = Some wt ->
  Branch wt = currentBranch ->
  let w1 := after (determineTarget args worktrees currentDir) w in
  stdout (after (rebaseSession args) w)
    = (stdout w1 ++ [Errorf_onto_itself currentBranch])%list /\
  trace (after (rebaseSession args) w) = trace w1 /\
  stdin (after (rebaseSession args) w) = stdin w1 /\
  mutations (trace (after (rebaseSession args) w)) = mutations (trace w).
Proof.
  intros Hd Hb Hl Hv Hs w1.
  assert (Hn : worktrees <> []).
  { intros ->. rewrite determineTarget_nil in Hv. discriminate. }
  pose proof (issues_readonly _ w (issues_determineTarget args worktrees currentDir)) as Hro.
  fold w1 in Hro.
  unfold after at 1 2 3 4.
  rewrite (rebaseSession_unfold _ _ _ _ _ Hd Hb Hl Hn).
  change (snd (bind ?m ?k w)) with (after (bind m k) w).
  rewrite after_bind, Hv. fold w1.
  unfold rebaseTarget. rewrite Hs, String.eqb_refl.
  cbn. auto.
Qed.

(** C7.  When the commit message typed for the chosen worktree is empty,
    the rebase command prints the error and returns: nothing is staged,
    committed or rebased; the trace is the one left by choosing the target,
    and with an argument on the command line no command was issued at
    all. *)
Theorem empty_commit_message_is_rejected w args currentDir currentBranch worktrees wt :
  os_Getwd w = Ok currentDir ->
  manager_GetCurrentBranch w = Ok currentBranch ->
  worktreeManager_List w = Ok worktrees ->
  value (determineTarget args worktrees currentDir) w = Some wt ->
  Branch wt <> currentBranch ->
  let w1 := after (determineTarget args worktrees currentDir) w in
  value promptForCommitMessage w1 = "" ->
  stdout (after (rebaseSession args) w)
    = (stdout w1 ++ [Infof_rebasing_onto wt currentBranch; Println;
                     Print_enter_message; Error_empty_message])%list /\
  trace (after (rebaseSession args) w) = trace w1 /\
  mutations (trace (after (rebaseSession args) w)) = mutations (trace w) /\
  (args <> [] -> trace (after (rebaseSession args) w) = trace w).
Proof.
  intros Hd Hb Hl Hv Hs w1 Hm.
  assert (Hn : worktrees <> []).
  { intros ->. rewrite determineTarget_nil in Hv. discriminate. }
  pose proof (issues_readonly _ w (issues_determineTarget args worktrees currentDir)) as Hro.
  fold w1 in Hro.
  assert (Ha : args <> [] -> trace w1 = trace w).
  { destruct args as [|target rest]; [congruence|]. intros _. unfold w1.
    now rewrite (runs_after _ _ _ _ _ _
                   (determineTarget_by_argument target rest worktrees currentDir w)). }
  unfold after at 1 2 3 4.
  rewrite (rebaseSession_unfold _ _ _ _ _ Hd Hb Hl Hn).
  change (snd (bind ?m ?k w)) with (after (bind m k) w).
  rewrite after_bind, Hv. fold w1.
  apply String.eqb_neq in Hs.
  unfold rebaseTarget. rewrite Hs.
  revert Hm. unfold value, after, promptForCommitMessage, bind, print, ScanLine,
    ret, with_stdout, with_stdin. cbn.
  destruct (stdin w1) as [|line rest]; cbn.
  - intros _. rewrite <- !app_assoc. cbn. auto.
  - intros ->. cbn. rewrite <- !app_assoc. cbn. auto.
Qed.

Lemma self_rebase_is_rejected_witness :
  value (determineTarget ["main"] [wtMain; wtA] "/repo") quietWorld = Some wtMain /\
  Branch wtMain = "main" /\
  stdout (after (rebaseSession ["main"]) quietWorld) = [Errorf_onto_itself "main"] /\
  trace (after (rebaseSession ["main"]) quietWorld) = [] /\
  stdin (after (rebaseSession ["main"]) quietWorld) = [] /\
  mutations (trace (after (rebaseSession ["main"]) quietWorld)) = [].
Proof.
  split; [reflexivity|]. split; [reflexivity|].
  apply (self_rebase_is_rejected quietWorld ["main"] "/repo" "main"
           [wtMain; wtA] wtMain); reflexivity.
Defined.

Lemma empty_commit_message_is_rejected_witness :
  value (determineTarget ["a"] [wtMain; wtA] "/repo") blankMessageWorld = Some wtA /\
  Branch wtA <> "main" /\
  value promptForCommitMessage blankMessageWorld = "" /\
  stdout (after (rebaseSession ["a"]) blankMessageWorld)
    = [Infof_rebasing_onto wtA "main"; Println; Print_enter_message;
       Error_empty_message] /\
  trace (after (rebaseSession ["a"]) blankMessageWorld) = [] /\
  mutations (trace (after (rebaseSession ["a"]) blankMessageWorld)) = [] /\
  (["a"] <> [] -> trace (after (rebaseSession ["a"]) blankMessageWorld) = []).
Proof.
  split; [reflexivity|]. split; [discriminate|]. split; [reflexivity|].
  apply (empty_commit_message_is_rejected blankMessageWorld ["a"] "/repo" "main"
           [wtMain; wtA] wtA); try reflexivity.
  discriminate.
Defined.

(** ** Lines a computation prints *)

Lemma prints_ret {A} P (a : A) : prints P (ret a).
Proof. intros w. exists []. cbn. now rewrite app_nil_r. Qed.

Lemma prints_print (P : Out -> Prop) (e : Out) : P e -> prints P (print e).
Proof. intros H w. exists [e]. cbn. auto. Qed.

Lemma prints_ScanLine P : prints P ScanLine.
Proof.
  intros w. exists []. unfold after, ScanLine.
  destruct (stdin w); cbn; now rewrite app_nil_r.
Qed.

Lemma prints_CombinedOutput P (c : Cmd) : prints P (CombinedOutput c).
Proof. intros w. exists []. cbn. now rewrite app_nil_r. Qed.

Lemma prints_bind_where {A B} P (Q : A -> Prop) (m : M A) (k : A -> M B) :
  prints P m -> returns Q m -> (forall a, Q a -> prints P (k a)) ->
  prints P (bind m k).
Proof.
  intros Hm Hq Hk w. destruct (Hm w) as [n1 [E1 F1]].
  destruct (Hk _ (Hq w) (after m w)) as [n2 [E2 F2]].
  exists (n1 ++ n2)%list. split.
  - rewrite after_bind, E2, E1. now rewrite app_assoc.
  - apply Forall_app; auto.
Qed.

Lemma prints_bind {A B} P (m : M A) (k : A -> M B) :
  prints P m -> (forall a, prints P (k a)) -> prints P (bind m k).
Proof.
  intros Hm Hk. apply (prints_bind_where P (fun _ => True)); auto.
  intros w. exact I.
Qed.

(** ** The rebase command: lookup by argument *)

Lemma find_first {A} (f : A -> bool) (l : list A) (x : A) :
  find f l = Some x <-> firstWith (fun y => f y = true) l x.
Proof.
  unfold firstWith. induction l as [|a l IH]; cbn [find].
  - split; [discriminate|]. intros [[|b before] [rest [E _]]]; discriminate.
  - destruct (f a) eqn:Fa.
    + split.
      * intros [= <-]. exists [], l. auto.
      * intros [[|b before] [rest [E [Fx Hb]]]]; injection E as -> ->;
          [reflexivity|].
        inversion Hb; congruence.
    + rewrite IH. split.
      * intros [before [rest [-> [Fx Hb]]]].
        exists (a :: before), rest. repeat split; [assumption|].
        constructor; [congruence | assumption].
      * intros [[|b before] [rest [E [Fx Hb]]]]; injection E as -> ->;
          [congruence|].
        exists before, rest. inversion Hb. auto.
Qed.

Lemma find_nothing {A} (f : A -> bool) (l : list A) :
  find f l = None <-> forall x, In x l -> f x = false.
Proof.
  induction l as [|a l IH]; cbn [find In]; [tauto|].
  destruct (f a) eqn:Fa.
  - split; [discriminate|]. intros H. specialize (H a (or_introl eq_refl)). congruence.
  - rewrite IH. split.
    + intros H x [<- | I]; auto.
    + auto.
Qed.

Lemma firstWith_iff {A} (P Q : A -> Prop) (l : list A) (x : A) :
  (forall y, P y <-> Q y) -> firstWith P l x -> firstWith Q l x.
Proof.
  intros H [before [rest [E [Px Hb]]]]. exists before, rest.
  repeat split; [assumption | now apply H |].
  eapply Forall_impl; [|exact Hb]. intros y Hy Qy. apply Hy. now apply H.
Qed.

Lemma pathMatches_spec target wt :
  pathMatches target wt = true <-> Path wt = target \/ endsWith target (Path wt).
Proof.
  unfold pathMatches. now rewrite orb_true_iff, String.eqb_eq, HasSuffix_spec.
Qed.

Lemma selects_spec target wt :
  (if isPathArg target then pathMatches target wt else branchMatches target wt) = true
  <-> selects target wt.
Proof.
  unfold selects, isPath. rewrite <- isPathArg_spec.
  destruct (isPathArg target).
  - rewrite pathMatches_spec. intuition congruence.
  - unfold branchMatches. rewrite String.eqb_eq. intuition congruence.
Qed.

Lemma findTarget_find target worktrees :
  findTarget target worktrees
  = find (fun wt => if isPathArg target then pathMatches target wt
                    else branchMatches target wt) worktrees.
Proof. unfold findTarget. now destruct (isPathArg target). Qed.

Lemma firstWith_nonempty {A} (P : A -> Prop) (l : list A) (x : A) :
  firstWith P l x -> l <> [].
Proof. intros [before [rest [-> _]]]. now destruct before. Qed.

Lemma findTarget_first target worktrees wt :
  findTarget target worktrees = Some wt <-> firstWith (selects target) worktrees wt.
Proof.
  rewrite findTarget_find, find_first. split;
    apply firstWith_iff; intros y; [|symmetry]; apply selects_spec.
Qed.

(** What [rebaseTarget] prints after its first line, and where its commands
    go. *)
Lemma prints_rebaseTarget_rest wt cur :
  prints (fun _ => True)
    (print Println ;;
     commitMessage <- promptForCommitMessage ;;
     if String.eqb commitMessage "" then print Error_empty_message
     else
       print Info_committing ;;
       err <- CommitAndRebaseSession (Path wt) cur commitMessage ;;
       match err with
       | Some err => print (Errorf_failed err)
       | None =>
           print (Successf_rebased wt cur) ;;
           print (Infof_preserved (Path wt))
       end).
Proof.
  unfold promptForCommitMessage, CommitAndRebaseSession, StageAll, Commit,
    RebaseCommit, AbortRebase.
  repeat first
    [ apply prints_ret
    | apply prints_print; exact I
    | apply prints_ScanLine
    | apply prints_CombinedOutput
    | apply prints_bind; [|intros ?]
    | match goal with
      | |- prints _ (let '(_, _) := ?x in _) => destruct x
      | |- prints _ (match ?x with _ => _ end) => destruct x
      | |- prints _ (if ?x then _ else _) => destruct x
      end ].
Qed.

Lemma issues_rebaseTarget wt cur :
  issues (fun c => Dir c = Path wt) (rebaseTarget wt cur).
Proof.
  unfold rebaseTarget, promptForCommitMessage, CommitAndRebaseSession, StageAll,
    Commit, RebaseCommit, AbortRebase.
  repeat first
    [ issues_step
    | reflexivity
    | match goal with
      | |- issues _ (if ?x then _ else _) => destruct x
      end ].
Qed.

(** C10.  An argument of the rebase command that begins with "/", "." or
    "~" selects the first worktree of the listing whose path equals the
    argument or ends with it; any other argument selects the first worktree
    whose branch equals it.  The command goes on with the worktree
    selected and with no other: its first line names that worktree (or
    rejects a rebase of the current branch onto itself), and every command
    it issues runs in the directory of that worktree.  When no worktree of
    the listing is selected, the command issues no command and reads no
    input: it prints that the worktree was not found and the available
    worktrees (or, for an empty listing, that no worktrees were found). *)
Theorem target_is_first_match_of_argument target worktrees :
  (forall w rest currentDir wt,
     value (determineTarget (target :: rest) worktrees currentDir) w = Some wt <->
     firstWith (selects target) worktrees wt) /\
  (forall w rest currentDir currentBranch wt,
     os_Getwd w = Ok currentDir ->
     manager_GetCurrentBranch w = Ok currentBranch ->
     worktreeManager_List w = Ok worktrees ->
     firstWith (selects target) worktrees wt ->
     rebaseSession (target :: rest) w = rebaseTarget wt currentBranch w /\
     (exists evs,
        stdout (after (rebaseSession (target :: rest)) w)
        = (stdout w ++
           (if String.eqb (Branch wt) currentBranch
            then Errorf_onto_itself currentBranch
            else Infof_rebasing_onto wt currentBranch) :: evs)%list) /\
     (exists new,
        trace (after (rebaseSession (target :: rest)) w) = (trace w ++ new)%list /\
        Forall (fun c => Dir c = Path wt) new)) /\
  (forall w rest currentDir currentBranch,
     os_Getwd w = Ok currentDir ->
     manager_GetCurrentBranch w = Ok currentBranch ->
     worktreeManager_List w = Ok worktrees ->
     (forall wt, In wt worktrees -> ~ selects target wt) ->
     trace (after (rebaseSession (target :: rest)) w) = trace w /\
     stdin (after (rebaseSession (target :: rest)) w) = stdin w /\
     stdout (after (rebaseSession (target :: rest)) w)
       = (stdout w ++
          match worktrees with
          | [] => [Info_no_worktrees]
          | _ => Errorf_not_found target :: Info_available ::
                 map Printf_available worktrees
          end)%list).
Proof.
  split; [|split].
  - intros w rest currentDir wt.
    rewrite (runs_value _ _ _ _ _ _
               (determineTarget_by_argument target rest worktrees currentDir w)).
    apply findTarget_first.
  - intros w rest currentDir currentBranch wt Hd Hb Hl Hf.
    pose proof (firstWith_nonempty _ _ _ Hf) as Hn.
    apply findTarget_first in Hf.
    assert (E : rebaseSession (target :: rest) w = rebaseTarget wt currentBranch w).
    { rewrite (rebaseSession_unfold _ _ _ _ _ Hd Hb Hl Hn).
      unfold determineTarget. rewrite Hf. reflexivity. }
    split; [exact E|]. unfold after. rewrite E.
    change (snd (rebaseTarget wt currentBranch w))
      with (after (rebaseTarget wt currentBranch) w).
    split; [|apply issues_rebaseTarget].
    unfold rebaseTarget. destruct (String.eqb (Branch wt) currentBranch).
    + now exists [].
    + rewrite after_bind.
      destruct (prints_rebaseTarget_rest wt currentBranch
                  (after (print (Infof_rebasing_onto wt currentBranch)) w))
        as [evs [Ev _]].
      exists evs. cbn beta. rewrite Ev. cbn. now rewrite <- app_assoc.
  - intros w rest currentDir currentBranch Hd Hb Hl Hno.
    destruct worktrees as [|x ws] eqn:Ew.
    + unfold after, rebaseSession. rewrite Hd, Hb, Hl. cbn. auto.
    + rewrite <- Ew in *.
      assert (Hn : worktrees <> []) by (rewrite Ew; discriminate).
      assert (Hf : findTarget target worktrees = None).
      { rewrite findTarget_find. apply find_nothing. intros wt I.
        destruct (if isPathArg target then _ else _) eqn:E; [|reflexivity].
        apply selects_spec in E. now apply Hno in E. }
      pose proof (determineTarget_by_argument target rest worktrees currentDir w) as R.
      rewrite Hf in R.
      unfold after at 1 2 3.
      rewrite (rebaseSession_unfold _ _ _ _ _ Hd Hb Hl Hn).
      change (snd (bind ?m ?k w)) with (after (bind m k) w).
      rewrite after_bind, (runs_value _ _ _ _ _ _ R), (runs_after _ _ _ _ _ _ R).
      rewrite Ew. cbn. auto.
Qed.

Lemma target_is_first_match_of_argument_witness :
  firstWith (selects "/a") [wtMain; wtA; wtB] wtA /\
  rebaseSession ["/a"] blankMessageWorld = rebaseTarget wtA "main" blankMessageWorld /\
  stdout (after (rebaseSession ["c"]) quietWorld)
    = [Errorf_not_found "c"; Info_available;
       Printf_available wtMain; Printf_available wtA].
Proof.
  assert (F : forall l, value (determineTarget ["/a"] l "/repo") quietWorld = Some wtA ->
                        firstWith (selects "/a") l wtA).
  { intros l. apply (proj1 (target_is_first_match_of_argument "/a" l)). }
  split; [apply F; reflexivity|]. split.
  - apply (proj1 (proj2 (target_is_first_match_of_argument "/a" [wtMain; wtA]))
             blankMessageWorld [] "/repo" "main" wtA eq_refl eq_refl eq_refl).
    apply F. reflexivity.
  - apply (proj2 (proj2 (target_is_first_match_of_argument "c" [wtMain; wtA]))
             quietWorld [] "/repo" "main" eq_refl eq_refl eq_refl).
    intros wt [<- | [<- | []]] [[[H | [H | H]] _] | [_ H]];
      try discriminate; destruct H as [r H]; discriminate.
Defined.

(** ** Detached worktrees *)

(** C9, as stated, fails: the rebase command given the path of a detached
    worktree (empty branch) selects it, and stages, commits and rebases in
    it. *)
Lemma detached_worktree_is_rebased_by_path :
  Branch wtDetached = "" /\
  value (determineTarget ["/w/detached"] [wtMain; wtDetached] "/repo") detachedWorld
    = Some wtDetached /\
  trace (after (rebaseSession ["/w/detached"]) detachedWorld)
    = [git_in "/w/detached" ["add"; "-A"];
       git_in "/w/detached" ["commit"; "-m"; "wip"];
       git_in "/w/detached" ["rebase"; "main"]] /\
  stdout (after (rebaseSession ["/w/detached"]) detachedWorld)
    = [Infof_rebasing_onto wtDetached "main"; Println; Print_enter_message;
       Info_committing; Successf_rebased wtDetached "main";
       Infof_preserved "/w/detached"].
Proof. repeat split. Qed.

(** C9, as amended.  In a fanout run every command goes to a worktree of
    the listing that is not at the current directory, has a non-empty
    branch and is not on the current branch: no other worktree is
    evaluated or rebased.  The interactive selector of the rebase command
    only returns a worktree that is not at the current directory and has a
    non-empty branch, and its queries go to such worktrees (or ask the
    current directory for its branch) and change nothing. *)
Theorem detached_worktrees_are_filtered_out w currentDir currentBranch worktrees :
  os_Getwd w = Ok currentDir ->
  manager_GetCurrentBranch w = Ok currentBranch ->
  worktreeManager_List w = Ok worktrees ->
  (exists new,
     trace (after fanoutBranches w) = (trace w ++ new)%list /\
     Forall (fun c => exists wt, In wt worktrees /\
                                 fanoutCandidate currentDir currentBranch wt /\
                                 Dir c = Path wt) new) /\
  (forall wt,
     value (selectWorktreeForRebase worktrees currentDir) w = Some wt ->
     In wt worktrees /\ selectorCandidate currentDir wt) /\
  (exists new,
     trace (after (selectWorktreeForRebase worktrees currentDir) w)
       = (trace w ++ new)%list /\
     Forall (fun c => readonly c /\
                      (Dir c = currentDir \/
                       exists wt, In wt worktrees /\
                                  selectorCandidate currentDir wt /\
                                  Dir c = Path wt)) new).
Proof.
  intros Hd Hb Hl. split; [|split].
  - set (targets := filter (fanoutTarget currentDir currentBranch) worktrees).
    assert (E : after fanoutBranches w
                = after (if len targets =? 0 then print Info_no_targets
                         else fanoutOnto currentBranch targets) w).
    { unfold after, fanoutBranches. now rewrite Hd, Hb, Hl. }
    rewrite E.
    assert (I : issues (fun c => exists wt, In wt targets /\ Dir c = Path wt)
                       (if len targets =? 0 then print Info_no_targets
                        else fanoutOnto currentBranch targets)).
    { destruct (len targets =? 0); [apply issues_print|apply issues_fanoutOnto]. }
    destruct (I w) as [new [Et F]]. exists new. split; [assumption|].
    eapply Forall_impl; [|exact F]. intros c [wt [Hin D]].
    apply filter_In in Hin. destruct Hin as [Hin Hf].
    exists wt. rewrite <- fanoutTarget_spec. auto.
  - intros wt H.
    apply (selectWorktreeForRebase_returns worktrees currentDir w) in H.
    apply filter_In in H. now rewrite <- rebaseCandidate_spec.
  - destruct (issues_selectWorktreeForRebase worktrees currentDir w) as [new [Et F]].
    exists new. split; [assumption|].
    eapply Forall_impl; [|exact F]. intros c [R [D | [wt [Hin D]]]];
      (split; [assumption|]); [now left|right].
    apply filter_In in Hin. exists wt. rewrite <- rebaseCandidate_spec. tauto.
Qed.

Lemma detached_worktrees_are_filtered_out_witness :
  value (selectWorktreeForRebase [wtMain; wtDetached; wtA] "/repo") pickFirstWorld
    = Some wtA /\
  In wtA [wtMain; wtDetached; wtA] /\ selectorCandidate "/repo" wtA.
Proof.
  split; [reflexivity|].
  apply (proj1 (proj2 (detached_worktrees_are_filtered_out pickFirstWorld
                         "/repo" "main" [wtMain; wtDetached; wtA]
                         eq_refl eq_refl eq_refl))).
  reflexivity.
Defined.

(** * Further properties *)

(** ** The two rebase functions *)

(** X7.  [RebaseCommit] of the rebase manager and [rebaseWorktree] of the
    fanout command are the same operation: from every world they return
    the same triple and leave the same world. *)
Theorem rebase_functions_agree w dir onto :
  RebaseCommit dir onto w = rebaseWorktree dir onto w.
Proof.
  pose proof (rebaseWorktree_runs w dir onto) as Hw.
  pose proof (RebaseCommit_runs w dir onto) as Hc.
  destruct (git w (trace w) (git_in dir ["rebase"; onto])) as [output [e|]];
    [destruct (conflictOutput output)|];
    now rewrite (runs_here _ _ _ _ _ _ Hw), (runs_here _ _ _ _ _ _ Hc).
Qed.

(** X8.  A rebase that succeeds, or fails without a conflict marker in its
    output, issues the rebase command and nothing else: no abort follows.
    A successful rebase returns (true, false, nil). *)
Theorem rebase_without_conflict_does_not_abort w dir onto output err :
  git w (trace w) (git_in dir ["rebase"; onto]) = (output, err) ->
  err = None \/ conflictOutput output = false ->
  trace (after (rebaseWorktree dir onto) w)
    = (trace w ++ [git_in dir ["rebase"; onto]])%list /\
  trace (after (RebaseCommit dir onto) w)
    = (trace w ++ [git_in dir ["rebase"; onto]])%list /\
  (err = None -> value (rebaseWorktree dir onto) w = (true, false, None) /\
                 value (RebaseCommit dir onto) w = (true, false, None)).
Proof.
  intros E H.
  pose proof (rebaseWorktree_runs w dir onto) as Hw.
  pose proof (RebaseCommit_runs w dir onto) as Hc.
  rewrite E in Hw, Hc.
  destruct err as [e|].
  - destruct H as [H|H]; [discriminate|]. rewrite H in Hw, Hc.
    rewrite (runs_after _ _ _ _ _ _ Hw), (runs_after _ _ _ _ _ _ Hc).
    repeat split; discriminate.
  - rewrite (runs_after _ _ _ _ _ _ Hw), (runs_after _ _ _ _ _ _ Hc),
      (runs_value _ _ _ _ _ _ Hw), (runs_value _ _ _ _ _ _ Hc).
    repeat split.
Qed.

Lemma rebase_without_conflict_does_not_abort_witness :
  git otherFailureWorld [] (git_in "/w/a" ["rebase"; "main"])
    = ("fatal: invalid upstream", Some exit128) /\
  conflictOutput "fatal: invalid upstream" = false /\
  trace (after (rebaseWorktree "/w/a" "main") otherFailureWorld)
    = [git_in "/w/a" ["rebase"; "main"]] /\
  trace (after (RebaseCommit "/w/a" "main") otherFailureWorld)
    = [git_in "/w/a" ["rebase"; "main"]].
Proof.
  split; [reflexivity|]. split; [reflexivity|].
  destruct (rebase_without_conflict_does_not_abort otherFailureWorld "/w/a" "main"
              "fatal: invalid upstream" (Some exit128) eq_refl
              (or_intror eq_refl)) as [H1 [H2 _]].
  split; assumption.
Defined.

(** ** The repository inspector *)

Lemma append_assoc (a b c : string) : ((a ++ b) ++ c = a ++ (b ++ c))%string.
Proof. induction a as [|x a IH]; cbn; [reflexivity | now rewrite IH]. Qed.

Lemma append_empty (s : string) : (s ++ "" = s)%string.
Proof. induction s as [|x s IH]; cbn; [reflexivity | now rewrite IH]. Qed.

Lemma isSpaceRune_spec x :
  strings.isSpaceRune x = true <-> In x strings.spaceRunes.
Proof.
  unfold strings.isSpaceRune. rewrite existsb_exists. split.
  - intros [e [I E]]. apply String.eqb_eq in E. now subst.
  - intros I. exists x. split; [assumption | apply String.eqb_refl].
Qed.

Lemma blank_app a b : blank a -> blank b -> blank (a ++ b).
Proof.
  intros Ha Hb. induction Ha as [|e s I _ IH]; [exact Hb|].
  rewrite append_assoc. now apply blank_rune.
Qed.

Lemma blank_one e : In e strings.spaceRunes -> blank e.
Proof.
  intros I. rewrite <- (append_empty e). apply blank_rune; [assumption|constructor].
Qed.

(** Trimming on the left removes a white-space rune at the head. *)
Lemma TrimLeft_rune e s :
  In e strings.spaceRunes -> strings.TrimLeft (e ++ s) = strings.TrimLeft s.
Proof.
  intros I. unfold strings.spaceRunes in I. cbn in I.
  repeat (destruct I as [<- | I]; [reflexivity|]). contradiction.
Qed.

Lemma TrimLeft_blank s : blank s -> strings.TrimLeft s = "".
Proof.
  induction 1 as [|e s I _ IH]; [reflexivity|]. now rewrite TrimLeft_rune.
Qed.

(** What trimming on the left removes is white space. *)
Lemma TrimLeft_split n :
  forall s, (String.length s <= n)%nat ->
            exists b, blank b /\ s = (b ++ strings.TrimLeft s)%string.
Proof.
  induction n as [|n IH]; intros s H.
  - destruct s; [|cbn in H; lia]. exists "". split; [constructor|reflexivity].
  - destruct s as [|c0 r0]; [exists ""; split; [constructor|reflexivity]|].
    cbn [String.length] in H. cbn [strings.TrimLeft].
    destruct (strings.isSpaceRune (String c0 "")) eqn:E1.
    { destruct (IH r0) as [b [Hb E]]; [lia|].
      exists (String c0 "" ++ b)%string. split.
      - apply blank_rune; [now apply isSpaceRune_spec|assumption].
      - cbn. now rewrite <- E. }
    destruct r0 as [|c1 r1]; [exists ""; split; [constructor|reflexivity]|].
    cbn [String.length] in H.
    destruct (strings.isSpaceRune (String c0 (String c1 ""))) eqn:E2.
    { destruct (IH r1) as [b [Hb E]]; [lia|].
      exists (String c0 (String c1 "") ++ b)%string. split.
      - apply blank_rune; [now apply isSpaceRune_spec|assumption].
      - cbn. now rewrite <- E. }
    destruct r1 as [|c2 r2]; [exists ""; split; [constructor|reflexivity]|].
    cbn [String.length] in H.
    destruct (strings.isSpaceRune (String c0 (String c1 (String c2 "")))) eqn:E3.
    { destruct (IH r2) as [b [Hb E]]; [lia|].
      exists (String c0 (String c1 (String c2 "")) ++ b)%string. split.
      - apply blank_rune; [now apply isSpaceRune_spec|assumption].
      - cbn. now rewrite <- E. }
    exists "". split; [constructor|reflexivity].
Qed.

(** What trimming on the right removes is white space. *)
Lemma TrimRight_split s :
  exists b, blank b /\ s = (strings.TrimRight s ++ b)%string.
Proof.
  induction s as [|c s [b [Hb E]]]; [exists ""; split; [constructor|reflexivity]|].
  cbn [strings.TrimRight].
  destruct (strings.isSpaceRune (String c (strings.TrimRight s))) eqn:R.
  - exists (String c (strings.TrimRight s) ++ b)%string. split.
    + apply blank_rune; [now apply isSpaceRune_spec|assumption].
    + cbn. now rewrite <- E.
  - exists b. split; [assumption|]. cbn. now rewrite <- E.
Qed.

(** A string trims to nothing exactly when it is white space only. *)
Lemma TrimSpace_blank s : strings.TrimSpace s = "" <-> blank s.
Proof.
  unfold strings.TrimSpace. split.
  - intros H.
    destruct (TrimLeft_split (String.length s) s (le_n _)) as [b [Hb E]].
    destruct (TrimRight_split (strings.TrimLeft s)) as [b' [Hb' E']].
    rewrite H in E'. cbn in E'. rewrite E, E'. now apply blank_app.
  - intros H. now rewrite (TrimLeft_blank _ H).
Qed.

Lemma TrimSpace_text s :
  negb (String.eqb (strings.TrimSpace s) "") = true <-> hasText s.
Proof.
  unfold hasText. rewrite <- TrimSpace_blank, negb_true_iff, String.eqb_neq.
  reflexivity.
Qed.

(** X9.  A directory has uncommitted changes exactly when the status query
    succeeds and its output has a byte that is not white space; a failed
    query counts as clean.  The check issues the status query and nothing
    else, and [HasChanges] of the commit manager is the same check. *)
Theorem uncommitted_changes_iff_status_has_text w dir :
  (value (HasUncommittedChanges dir) w = true <->
   exists output, git w (trace w) (statusCmd dir) = (output, None) /\
                  hasText output) /\
  trace (after (HasUncommittedChanges dir) w) = (trace w ++ [statusCmd dir])%list /\
  HasChanges dir w = HasUncommittedChanges dir w.
Proof.
  split; [|split; [|reflexivity]].
  2: { unfold after, HasUncommittedChanges, bind, CombinedOutput, ret, statusCmd.
       cbn. now destruct (git w (trace w) _) as [output [e|]]. }
  unfold value, HasUncommittedChanges, bind, CombinedOutput, ret, statusCmd. cbn.
  destruct (git w (trace w) (git_in dir ["status"; "--porcelain"]))
    as [output [e|]]; cbn.
  - split; [discriminate | intros [o [[= _ H] _]]; discriminate].
  - rewrite TrimSpace_text. split.
    + intros H. now exists output.
    + now intros [o [[= <-] H]].
Qed.

Lemma uncommitted_changes_iff_status_has_text_witness :
  value (HasUncommittedChanges "/w/a") dirtyWorld = true /\
  exists output, git dirtyWorld [] (statusCmd "/w/a") = (output, None) /\
                 hasText output.
Proof.
  split; [reflexivity|].
  apply (proj1 (uncommitted_changes_iff_status_has_text dirtyWorld "/w/a")).
  reflexivity.
Defined.



Lemma parseCount_range s : int_min <= parseCount s <= int_max.
Proof.
  unfold parseCount. destruct (String.eqb s ""); [now cbv|].
  unfold fmt.Sscanf_d.
  destruct (match s with
            | String "-"%char r => (true, r)
            | String "+"%char r => (false, r)
            | _ => (false, s)
            end) as [neg rest].
  destruct (fmt.scanNumber rest None) as [n|]; [|now cbv].
  destruct ((int_min <=? (if neg then - n else n)) &&
            ((if neg then - n else n) <=? int_max)) eqn:E; [|now cbv].
  apply andb_true_iff in E. destruct E as [E1 E2].
  apply Z.leb_le in E1, E2. auto.
Qed.

Lemma int_sub_exact a b :
  0 <= a <= int_max -> 0 <= b <= int_max -> int_sub a b = a - b.
Proof.
  unfold int_sub, int_wrap, int_max. intros Ha Hb.
  rewrite Z.mod_small; lia.
Qed.

(** X5.  For a clean worktree whose two history queries succeed with
    counts that are not negative, the ahead check compares the counts: the
    worktree is unsafe exactly when it is more commits ahead than behind,
    and safe otherwise, also when it is ahead by fewer commits than it is
    behind.  The verdict carries the difference of the counts. *)
Theorem ahead_check_compares_counts cur wt w aheadOutput behindOutput :
  value (HasUncommittedChanges (Path wt)) w = false ->
  git w (trace w ++ [statusCmd (Path wt)]) (aheadCmd (Path wt) cur)
    = (aheadOutput, None) ->
  git w (trace w ++ [statusCmd (Path wt); aheadCmd (Path wt) cur])
      (behindCmd (Path wt) cur)
    = (behindOutput, None) ->
  let ahead := parseCount (strings.TrimSpace aheadOutput) in
  let behind := parseCount (strings.TrimSpace behindOutput) in
  0 <= ahead -> 0 <= behind ->
  value (checkWorktree cur wt) w
    = if behind <? ahead then UnsafeAhead (ahead - behind)
      else Safe (ahead - behind).
Proof.
  intros Hc Ha Hb ahead behind H0a H0b.
  assert (E : int_sub ahead behind = ahead - behind).
  { apply int_sub_exact; split; auto; apply parseCount_range. }
  revert Hc Ha Hb.
  unfold value, checkWorktree, HasUncommittedChanges,
    GetCommitCountDifference, bind, CombinedOutput, print, ret, with_trace,
    with_stdout, statusCmd, aheadCmd, behindCmd. cbn.
  destruct (git w (trace w) _) as [so [se|]]; cbn.
  2: destruct (negb _); cbn; [discriminate|].
  all: intros _ Ha; rewrite Ha; cbn; rewrite <- app_assoc; cbn;
    intros Hb; rewrite Hb; cbn; fold ahead behind; rewrite E;
    replace (0 <? ahead - behind) with (behind <? ahead)
      by (destruct (Z.ltb_spec behind ahead), (Z.ltb_spec 0 (ahead - behind));
          try reflexivity; lia);
    destruct (behind <? ahead); [reflexivity|];
    destruct (ahead - behind <? 0); reflexivity.
Qed.

Lemma ahead_check_compares_counts_witness :
  value (HasUncommittedChanges "/w/a") aheadWorld = false /\
  parseCount (strings.TrimSpace ("3" ++ nl)) = 3 /\
  parseCount (strings.TrimSpace ("1" ++ nl)) = 1 /\
  value (checkWorktree "main" wtA) aheadWorld = UnsafeAhead 2.
Proof.
  split; [reflexivity|]. split; [reflexivity|]. split; [reflexivity|].
  apply (ahead_check_compares_counts "main" wtA aheadWorld ("3" ++ nl) ("1" ++ nl));
    try reflexivity; cbv; discriminate.
Defined.

(** ** The safety loop *)

Lemma partition_length vs :
  (length (unsafeOf vs) + length (safeOf vs) = length vs)%nat.
Proof.
  induction vs as [|[wt v] vs IH]; [reflexivity|].
  rewrite unsafeOf_cons, safeOf_cons. destruct (isSafe v); cbn [length]; lia.
Qed.

Lemma safetyChecks_sorts cur ts :
  forall w u0 s0, exists u s,
    sorts cur ts w u s /\
    value (safetyChecks cur ts u0 s0) w = (u0 ++ map Branch u, s0 ++ s)%list.
Proof.
  induction ts as [|wt rest IH]; intros w u0 s0.
  - exists [], []. split; [constructor|]. cbn. now rewrite !app_nil_r.
  - cbn [safetyChecks]. rewrite value_bind.
    destruct (isSafe (value (checkWorktree cur wt) w)) eqn:E.
    + destruct (IH (after (checkWorktree cur wt) w) u0 (s0 ++ [wt])%list)
        as [u [s [H V]]].
      exists u, (wt :: s). split; [now apply sorts_safe|].
      rewrite V, <- app_assoc. reflexivity.
    + destruct (IH (after (checkWorktree cur wt) w) (u0 ++ [Branch wt])%list s0)
        as [u [s [H V]]].
      exists (wt :: u), s. split; [now apply sorts_unsafe|].
      rewrite V, <- app_assoc. reflexivity.
Qed.

Lemma sorts_length cur ts w u s :
  sorts cur ts w u s -> (length u + length s = length ts)%nat.
Proof. induction 1; cbn [length]; lia. Qed.

(** X6.  The safety loop sorts every target into exactly one of its two
    lists, by the verdict of its check and in discovery order: checked one
    after the other, the targets with a safe verdict make up the list of
    safe worktrees, and the branches of the others make up the list of
    unsafe branches; so the lengths of the two lists add up to the number
    of targets. *)
Theorem safety_loop_partitions_targets cur ts w :
  let r := value (safetyChecks cur ts [] []) w in
  (exists u, sorts cur ts w u (snd r) /\ fst r = map Branch u) /\
  (length (fst r) + length (snd r) = length ts)%nat.
Proof.
  cbv zeta. destruct (safetyChecks_sorts cur ts w [] []) as [u [s [H V]]].
  rewrite V. cbn [fst snd app]. split.
  - exists u. now split.
  - rewrite length_map. exact (sorts_length _ _ _ _ _ H).
Qed.

(** ** A fanout that goes through, and one that is declined *)

Lemma fanoutLoop_completes cur l :
  forall w n,
    rebasesSucceed (git w) (trace w) cur l = true ->
    runs (fanoutLoop cur l n) w (Some (n + len l))
         (trace w ++ map (rebaseCmd cur) l) (stdin w)
         (flat_map (completedLines cur) l).
Proof.
  induction l as [|x l IH]; intros w n Hs.
  - cbn [fanoutLoop map flat_map]. unfold len. cbn [length Z.of_nat].
    rewrite Z.add_0_r. apply runs_ret_at; [now rewrite app_nil_r|reflexivity].
  - apply rebasesSucceed_cons in Hs. destruct Hs as [Hx Hs].
    cbn [map flat_map fanoutLoop completedLines app].
    apply runs_print_then.
    pose proof (rebaseWorktree_runs w (Path x) cur) as Hr.
    unfold rebaseCmd in Hx. destruct (git w (trace w) _) as [ox [ex|]];
      [discriminate|].
    eapply runs_bind_silent; [exact Hr|]. cbn beta iota. cbn [negb].
    apply runs_print_then.
    specialize (IH (cont w (trace w ++ [rebaseCmd cur x]) (stdin w)) (n + 1)).
    cbn [cont set_io git trace stdin] in IH.
    rewrite <- app_assoc in IH. cbn [app] in IH.
    replace (n + len (x :: l)) with (n + 1 + len l)
      by (unfold len; cbn [length]; lia).
    apply IH. assumption.
Qed.

(** X1.  When every target of a fanout is safe, the user answers "yes" in
    any capitalisation and every rebase succeeds, the command rebases
    every target once, in discovery order, right after the queries of the
    plan, and issues nothing else; it ends with the summary that counts
    all targets. *)
Theorem confirmed_fanout_rebases_every_target w currentDir currentBranch worktrees :
  os_Getwd w = Ok currentDir ->
  manager_GetCurrentBranch w = Ok currentBranch ->
  worktreeManager_List w = Ok worktrees ->
  let targets := filter (fanoutTarget currentDir currentBranch) worktrees in
  let verdicts := value (plan currentBranch targets) w in
  let planned := trace (after (plan currentBranch targets) w) in
  targets <> [] ->
  unsafeOf verdicts = [] ->
  strings.ToLower (confirmation w) = "yes" ->
  rebasesSucceed (git w) planned currentBranch targets = true ->
  trace (after fanoutBranches w)
    = (planned ++ map (rebaseCmd currentBranch) targets)%list /\
  stdout (after fanoutBranches w)
    = (stdout w ++
       [Title_plan; Infof_source currentBranch; Infof_targets (len targets); Println] ++
       flat_map (verdictLines currentBranch) verdicts ++
       [Println; Title_ready; Warningf_will_rebase (len targets) currentBranch;
        Info_will_preserve; Println; Print_continue; Title_progress; Println] ++
       flat_map (completedLines currentBranch) targets ++
       [Println; Title_complete; Successf_fanned_out (len targets);
        Infof_synchronized currentBranch])%list.
Proof.
  intros Hd Hb Hl targets verdicts planned Hn Hu Hy Hs.
  destruct (plan_runs currentBranch targets w) as [vs [t [Hp _]]].
  unfold verdicts, planned in *.
  rewrite (runs_value _ _ _ _ _ _ Hp) in *.
  rewrite (runs_after _ _ _ _ _ _ Hp) in *. cbn [trace set_io] in *.
  assert (R : runs (fanoutOnto currentBranch targets) w tt
                (t ++ map (rebaseCmd currentBranch) targets) (tl (stdin w))
                ([Title_plan; Infof_source currentBranch;
                  Infof_targets (len targets); Println] ++
                 flat_map (verdictLines currentBranch) vs ++
                 [Println; Title_ready; Warningf_will_rebase (len targets) currentBranch;
                  Info_will_preserve; Println; Print_continue] ++
                 (Title_progress :: Println ::
                  flat_map (completedLines currentBranch) targets ++
                  [Println; Title_complete; Successf_fanned_out (len targets);
                   Infof_synchronized currentBranch]))).
  { eapply fanoutOnto_asks; [exact Hp|exact Hn|exact Hu|].
    rewrite Hy. cbn [String.eqb negb]. change ("yes" =? "yes")%string with true.
    cbn [negb]. do 2 apply runs_print_then.
    eapply runs_bind.
    { apply (fanoutLoop_completes currentBranch targets
               (cont w t (tl (stdin w))) 0). exact Hs. }
    cbn beta iota. rewrite Z.add_0_l.
    do 3 apply runs_print_then.
    rewrite (len_pos _ Hn). now apply runs_print_at. }
  unfold after. rewrite (fanoutBranches_onto _ _ _ _ Hd Hb Hl Hn).
  fold targets. rewrite (runs_here _ _ _ _ _ _ R). cbn [snd trace stdin stdout set_io].
  repeat split.
Qed.

(** X2.  When every target of a fanout is safe and the answer to the
    confirmation is anything but "yes" (in any capitalisation), also no
    answer at all, the fanout is cancelled: no rebase is issued, the trace
    is the one of the plan. *)
Theorem declined_fanout_rebases_nothing w currentDir currentBranch worktrees :
  os_Getwd w = Ok currentDir ->
  manager_GetCurrentBranch w = Ok currentBranch ->
  worktreeManager_List w = Ok worktrees ->
  let targets := filter (fanoutTarget currentDir currentBranch) worktrees in
  let verdicts := value (plan currentBranch targets) w in
  targets <> [] ->
  unsafeOf verdicts = [] ->
  strings.ToLower (confirmation w) <> "yes" ->
  trace (after fanoutBranches w) = trace (after (plan currentBranch targets) w) /\
  mutations (trace (after fanoutBranches w)) = mutations (trace w) /\
  stdout (after fanoutBranches w)
    = (stdout w ++
       [Title_plan; Infof_source currentBranch; Infof_targets (len targets); Println] ++
       flat_map (verdictLines currentBranch) verdicts ++
       [Println; Title_ready; Warningf_will_rebase (len targets) currentBranch;
        Info_will_preserve; Println; Print_continue; Info_cancelled])%list.
Proof.
  intros Hd Hb Hl targets verdicts Hn Hu Hy.
  destruct (plan_runs currentBranch targets w) as [vs [t [Hp _]]].
  pose proof (issues_readonly (plan currentBranch targets) w) as Hro.
  unfold verdicts in *.
  rewrite (runs_value _ _ _ _ _ _ Hp) in *.
  rewrite (runs_after _ _ _ _ _ _ Hp) in *. cbn [trace set_io] in *.
  assert (R : runs (fanoutOnto currentBranch targets) w tt t (tl (stdin w))
                ([Title_plan; Infof_source currentBranch;
                  Infof_targets (len targets); Println] ++
                 flat_map (verdictLines currentBranch) vs ++
                 [Println; Title_ready; Warningf_will_rebase (len targets) currentBranch;
                  Info_will_preserve; Println; Print_continue] ++ [Info_cancelled])).
  { eapply fanoutOnto_asks; [exact Hp|exact Hn|exact Hu|].
    apply String.eqb_neq in Hy. rewrite Hy. cbn [negb].
    now apply runs_print_at. }
  unfold after. rewrite (fanoutBranches_onto _ _ _ _ Hd Hb Hl Hn).
  fold targets. rewrite (runs_here _ _ _ _ _ _ R). cbn [snd trace stdin stdout set_io].
  repeat split.
  apply Hro. eapply issues_weaken; [|apply issues_plan]. now intros c [H _].
Qed.

Lemma confirmed_fanout_rebases_every_target_witness :
  unsafeOf (value (plan "main" [wtA; wtB]) allSafeWorld) = [] /\
  strings.ToLower (confirmation allSafeWorld) = "yes" /\
  trace (after fanoutBranches allSafeWorld)
    = [statusCmd "/w/a"; aheadCmd "/w/a" "main"; behindCmd "/w/a" "main";
       statusCmd "/w/b"; aheadCmd "/w/b" "main"; behindCmd "/w/b" "main";
       rebaseCmd "main" wtA; rebaseCmd "main" wtB].
Proof.
  split; [reflexivity|]. split; [reflexivity|].
  assert (Hn : filter (fanoutTarget "/repo" "main") [wtMain; wtA; wtB] <> [])
    by discriminate.
  exact (proj1 (confirmed_fanout_rebases_every_target allSafeWorld "/repo" "main"
                  [wtMain; wtA; wtB] eq_refl eq_refl eq_refl Hn eq_refl eq_refl
                  eq_refl)).
Defined.

Lemma declined_fanout_rebases_nothing_witness :
  unsafeOf (value (plan "main" [wtA; wtB]) declinedWorld) = [] /\
  strings.ToLower (confirmation declinedWorld) = "no" /\
  mutations (trace (after fanoutBranches declinedWorld)) = [].
Proof.
  split; [reflexivity|]. split; [reflexivity|].
  assert (Hn : filter (fanoutTarget "/repo" "main") [wtMain; wtA; wtB] <> [])
    by discriminate.
  assert (Hy : strings.ToLower (confirmation declinedWorld) <> "yes")
    by (cbv; discriminate).
  exact (proj1 (proj2 (declined_fanout_rebases_nothing declinedWorld "/repo" "main"
                         [wtMain; wtA; wtB] eq_refl eq_refl eq_refl Hn eq_refl Hy))).
Defined.

(** ** The commands of a fanout *)

Lemma issues_checkWorktree_forms cur wt :
  issues (fun c => c = statusCmd (Path wt) \/ c = aheadCmd (Path wt) cur \/
                   c = behindCmd (Path wt) cur)
         (checkWorktree cur wt).
Proof.
  unfold checkWorktree.
  apply issues_bind; [apply issues_HasUncommittedChanges; now left|intros dirty].
  destruct dirty; [repeat issues_step|].
  apply issues_bind;
    [apply issues_GetCommitCountDifference; auto|intros r].
  repeat issues_step.
Qed.

Lemma fanoutCommand_cons cur wt ts c :
  fanoutCommand cur ts c -> fanoutCommand cur (wt :: ts) c.
Proof. intros [x [I H]]. exists x. split; [now right|assumption]. Qed.

Lemma issues_safetyChecks_forms cur ts :
  forall u s, issues (fanoutCommand cur ts) (safetyChecks cur ts u s).
Proof.
  induction ts as [|wt rest IH]; intros u s; cbn [safetyChecks];
    [apply issues_ret|].
  apply issues_bind.
  - eapply issues_weaken; [|apply issues_checkWorktree_forms].
    intros c H. exists wt. split; [now left|]. cbv beta in H. tauto.
  - intros v. destruct (isSafe v);
      (eapply issues_weaken; [|apply IH]); apply fanoutCommand_cons.
Qed.

Lemma issues_fanoutLoop_forms cur safe :
  forall n, issues (fanoutCommand cur safe) (fanoutLoop cur safe n).
Proof.
  induction safe as [|wt rest IH]; intros n; cbn [fanoutLoop];
    [apply issues_ret|].
  apply issues_bind; [apply issues_print|intros _].
  apply issues_bind.
  - apply issues_rebaseWorktree; exists wt; (split; [now left|]);
      unfold rebaseCmd, abortCmd; auto 8.
  - intros [[success hasConflict] [e|]].
    + destruct hasConflict; repeat issues_step.
    + destruct (negb success); [repeat issues_step|].
      apply issues_bind; [apply issues_print|intros _].
      eapply issues_weaken; [|apply IH]. apply fanoutCommand_cons.
Qed.

Lemma issues_fanoutOnto_forms cur ts :
  issues (fanoutCommand cur ts) (fanoutOnto cur ts).
Proof.
  unfold fanoutOnto.
  do 4 (apply issues_bind; [apply issues_print|intros _]).
  eapply issues_bind_where.
  - apply issues_safetyChecks_forms.
  - apply safetyChecks_returns.
  - intros [unsafe safe] Hsafe. cbn [snd] in Hsafe.
    apply issues_bind; [apply issues_print|intros _].
    destruct (0 <? len unsafe); [repeat issues_step|].
    destruct (len safe =? 0); [repeat issues_step|].
    do 5 (apply issues_bind; [apply issues_print|intros _]).
    apply issues_bind; [unfold Scanln; repeat issues_step|intros confirm].
    destruct (negb _); [apply issues_print|].
    do 2 (apply issues_bind; [apply issues_print|intros _]).
    apply issues_bind.
    + eapply issues_weaken; [|apply issues_fanoutLoop_forms].
      intros c [x [I D]]. exists x. split; [now apply Hsafe|assumption].
    + intros [n|]; [|apply issues_ret].
      do 3 (apply issues_bind; [apply issues_print|intros _]).
      destruct (0 <? n); [apply issues_print|apply issues_ret].
Qed.

(** X3.  Whatever the backend answers and the user types, every command a
    fanout issues is one of five git commands run in the directory of a
    listed worktree that passed the filter: the status query, the two
    rev-list counts against the current branch, the rebase onto the
    current branch, or the abort of that rebase.  In particular a fanout
    never stages and never commits. *)
Theorem fanout_issues_only_queries_and_rebases w currentDir currentBranch worktrees :
  os_Getwd w = Ok currentDir ->
  manager_GetCurrentBranch w = Ok currentBranch ->
  worktreeManager_List w = Ok worktrees ->
  exists new,
    trace (after fanoutBranches w) = (trace w ++ new)%list /\
    Forall (fanoutCommand currentBranch
              (filter (fanoutTarget currentDir currentBranch) worktrees)) new /\
    Forall (fun c => verb c <> "add" /\ verb c <> "commit") new.
Proof.
  intros Hd Hb Hl.
  set (targets := filter (fanoutTarget currentDir currentBranch) worktrees).
  assert (E : after fanoutBranches w
              = after (if len targets =? 0 then print Info_no_targets
                       else fanoutOnto currentBranch targets) w).
  { unfold after, fanoutBranches. now rewrite Hd, Hb, Hl. }
  rewrite E.
  assert (I : issues (fanoutCommand currentBranch targets)
                     (if len targets =? 0 then print Info_no_targets
                      else fanoutOnto currentBranch targets)).
  { destruct (len targets =? 0); [apply issues_print|apply issues_fanoutOnto_forms]. }
  destruct (I w) as [new [Et F]]. exists new. repeat split; try assumption.
  eapply Forall_impl; [|exact F].
  intros c [wt [_ [-> | [-> | [-> | [-> | ->]]]]]]; split; discriminate.
Qed.

Lemma fanout_issues_only_queries_and_rebases_witness :
  exists new,
    trace (after fanoutBranches secondConflictsWorld) = ([] ++ new)%list /\
    Forall (fanoutCommand "main" [wtA; wtB; wtC]) new /\
    Forall (fun c => verb c <> "add" /\ verb c <> "commit") new.
Proof.
  apply (fanout_issues_only_queries_and_rebases secondConflictsWorld
           "/repo" "main" [wtMain; wtA; wtB; wtC]); reflexivity.
Defined.

Lemma filter_nothing {A} (f : A -> bool) (l : list A) :
  (forall x, In x l -> f x = false) -> filter f l = [].
Proof.
  induction l as [|a l IH]; intros H; [reflexivity|].
  cbn. rewrite (H a (or_introl eq_refl)). apply IH. intros x I. apply H. now right.
Qed.

(** X4.  When no listed worktree passes the fanout filter (each is at the
    current directory, detached, or on the current branch), also when the
    listing is empty, the fanout says that there is nothing to fan out to
    and does nothing else: no command, no question. *)
Theorem fanout_without_targets_does_nothing w currentDir currentBranch worktrees :
  os_Getwd w = Ok currentDir ->
  manager_GetCurrentBranch w = Ok currentBranch ->
  worktreeManager_List w = Ok worktrees ->
  (forall wt, In wt worktrees -> ~ fanoutCandidate currentDir currentBranch wt) ->
  trace (after fanoutBranches w) = trace w /\
  stdin (after fanoutBranches w) = stdin w /\
  stdout (after fanoutBranches w) = (stdout w ++ [Info_no_targets])%list.
Proof.
  intros Hd Hb Hl Hno.
  assert (E : filter (fanoutTarget currentDir currentBranch) worktrees = []).
  { apply filter_nothing. intros wt I.
    destruct (fanoutTarget currentDir currentBranch wt) eqn:F; [|reflexivity].
    apply fanoutTarget_spec in F. now apply Hno in F. }
  unfold after, fanoutBranches. rewrite Hd, Hb, Hl, E. cbn. auto.
Qed.

Lemma fanout_without_targets_does_nothing_witness :
  trace (after fanoutBranches aloneWorld) = [] /\
  stdin (after fanoutBranches aloneWorld) = [] /\
  stdout (after fanoutBranches aloneWorld) = [Info_no_targets].
Proof.
  apply (fanout_without_targets_does_nothing aloneWorld "/repo" "main" [wtMain]);
    try reflexivity.
  intros wt [<- | []] [H _]. now apply H.
Defined.

Ltac reachable := intros [H|H]; discriminate H.

Ltac prints_step :=
  first
    [ apply prints_ret
    | apply prints_print; reachable
    | apply prints_ScanLine
    | apply prints_CombinedOutput
    | apply prints_bind; [|intros ?]
    | match goal with
      | |- prints _ (let '(_, _) := ?x in _) => destruct x
      | |- prints _ (match ?x with _ => _ end) => destruct x
      end ].

Lemma prints_checkWorktree cur wt :
  prints (fun o => ~ unreachableLine o) (checkWorktree cur wt).
Proof.
  unfold checkWorktree, HasUncommittedChanges, GetCommitCountDifference.
  repeat prints_step.
Qed.

Lemma prints_safetyChecks cur ts :
  forall u s, prints (fun o => ~ unreachableLine o) (safetyChecks cur ts u s).
Proof.
  induction ts as [|wt rest IH]; intros u s; cbn [safetyChecks];
    [apply prints_ret|].
  apply prints_bind; [apply prints_checkWorktree|intros v].
  destruct (isSafe v); apply IH.
Qed.

Lemma rebaseWorktree_returns dir onto :
  returns (fun r => snd r = None -> fst (fst r) = true) (rebaseWorktree dir onto).
Proof.
  intros w. pose proof (rebaseWorktree_runs w dir onto) as Hr.
  destruct (git w (trace w) _) as [output [e|]];
    [destruct (conflictOutput output)|];
    rewrite (runs_value _ _ _ _ _ _ Hr); cbn; auto; discriminate.
Qed.

Lemma prints_rebaseWorktree P dir onto : prints P (rebaseWorktree dir onto).
Proof.
  unfold rebaseWorktree, abortRebaseInWorktree, Run.
  repeat first
    [ apply prints_ret | apply prints_CombinedOutput
    | apply prints_bind; [|intros ?]
    | match goal with
      | |- prints _ (let '(_, _) := ?x in _) => destruct x
      | |- prints _ (match ?x with _ => _ end) => destruct x
      end ].
Qed.

Lemma prints_fanoutLoop cur safe :
  forall n, prints (fun o => ~ unreachableLine o) (fanoutLoop cur safe n).
Proof.
  induction safe as [|wt rest IH]; intros n; cbn [fanoutLoop];
    [apply prints_ret|].
  apply prints_bind; [apply prints_print; reachable|intros _].
  eapply prints_bind_where;
    [apply prints_rebaseWorktree|apply rebaseWorktree_returns|].
  intros [[success hasConflict] [e|]] Q; cbn [fst snd] in Q.
  - destruct hasConflict; repeat prints_step.
  - rewrite (Q eq_refl). cbn [negb].
    apply prints_bind; [apply prints_print; reachable|intros _]. apply IH.
Qed.

Lemma safetyChecks_some_safe cur ts :
  ts <> [] ->
  returns (fun r => fst r = [] -> snd r <> []) (safetyChecks cur ts [] []).
Proof.
  intros Hn w. destruct (plan_runs cur ts w) as [vs [t [_ [Hm Hs]]]].
  rewrite (runs_value _ _ _ _ _ _ (Hs [] [])). cbn [fst snd app].
  intros H. apply map_eq_nil in H. rewrite (all_safe _ H), Hm. exact Hn.
Qed.

Lemma prints_fanoutOnto cur ts :
  ts <> [] -> prints (fun o => ~ unreachableLine o) (fanoutOnto cur ts).
Proof.
  intros Hn. unfold fanoutOnto.
  do 4 (apply prints_bind; [apply prints_print; reachable|intros _]).
  eapply prints_bind_where;
    [apply prints_safetyChecks|apply (safetyChecks_some_safe _ _ Hn)|].
  intros [unsafe safe] Q. cbn [fst snd] in Q.
  apply prints_bind; [apply prints_print; reachable|intros _].
  destruct unsafe as [|b unsafe].
  - change (0 <? len (@nil string)) with false. cbn iota.
    rewrite (len_nonzero _ (Q eq_refl)).
    do 5 (apply prints_bind; [apply prints_print; reachable|intros _]).
    apply prints_bind; [unfold Scanln; repeat prints_step|intros confirm].
    destruct (negb _); [apply prints_print; reachable|].
    do 2 (apply prints_bind; [apply prints_print; reachable|intros _]).
    apply prints_bind; [apply prints_fanoutLoop|].
    intros [n|]; [|apply prints_ret].
    do 3 (apply prints_bind; [apply prints_print; reachable|intros _]).
    destruct (0 <? n); [apply prints_print; reachable|apply prints_ret].
  - rewrite (len_pos (b :: unsafe)) by discriminate. repeat prints_step.
Qed.

(** X16.  Two messages of the fanout command are never printed, whatever
    the listing, the backend and the user do: "No worktrees to fanout to"
    (when the targets are not empty and none is unsafe, all of them are
    safe) and "Rebase failed" (a rebase that returns no error has
    succeeded). *)
Theorem fanout_never_prints_unreachable_lines w :
  exists evs,
    stdout (after fanoutBranches w) = (stdout w ++ evs)%list /\
    Forall (fun o => o <> Info_nothing_to_fanout /\ o <> Errorf_rebase_failed) evs.
Proof.
  assert (P : exists evs,
             stdout (after fanoutBranches w) = (stdout w ++ evs)%list /\
             Forall (fun o => ~ unreachableLine o) evs).
  { unfold after, fanoutBranches.
    destruct (os_Getwd w) as [currentDir|e];
      [|apply (prints_print _ Error_getwd); reachable].
    destruct (manager_GetCurrentBranch w) as [currentBranch|e];
      [|apply (prints_print _ (Errorf_current_branch e)); reachable].
    destruct (worktreeManager_List w) as [worktrees|e];
      [|apply (prints_print _ (Errorf_list e)); reachable].
    cbv zeta.
    destruct (filter (fanoutTarget currentDir currentBranch) worktrees)
      as [|x ts] eqn:E.
    - apply (prints_print _ Info_no_targets); reachable.
    - rewrite len_nonzero by discriminate.
      apply (prints_fanoutOnto currentBranch (x :: ts)). discriminate. }
  destruct P as [evs [E F]]. exists evs. split; [assumption|].
  eapply Forall_impl; [|exact F]. unfold unreachableLine. intros o H.
  split; intros ->; apply H; auto.
Qed.

(** ** The interactive selector *)

Lemma quiet_ret {A} (a : A) : quiet (ret a).
Proof. intros w. exists a, (trace w), []. apply runs_ret. Qed.

Lemma quiet_print (e : Out) : quiet (print e).
Proof. intros w. exists tt, (trace w), [e]. apply runs_print. Qed.

Lemma quiet_CombinedOutput (c : Cmd) : quiet (CombinedOutput c).
Proof. intros w. eexists _, _, _. apply runs_CombinedOutput. Qed.

Lemma quiet_bind {A B} (m : M A) (k : A -> M B) :
  quiet m -> (forall a, quiet (k a)) -> quiet (bind m k).
Proof.
  intros Hm Hk w. destruct (Hm w) as [v [t [evs H]]].
  destruct (Hk v (cont w t (stdin w))) as [v' [t' [evs' H']]].
  exists v', t', (evs ++ evs')%list. eapply runs_bind; [exact H|exact H'].
Qed.

Ltac quiet_step :=
  first
    [ apply quiet_ret
    | apply quiet_print
    | apply quiet_CombinedOutput
    | apply quiet_bind; [|intros ?]
    | match goal with
      | |- quiet (let '(_, _) := ?x in _) => destruct x
      | |- quiet (match ?x with _ => _ end) => destruct x
      | |- quiet (if ?x then _ else _) => destruct x
      end ].

Lemma quiet_showEntries cur ws : forall i, quiet (showEntries cur i ws).
Proof.
  induction ws as [|wt rest IH]; intros i; cbn [showEntries];
    [apply quiet_ret|].
  apply quiet_bind;
    [unfold HasUncommittedChanges; repeat quiet_step|intros dirty].
  apply quiet_bind; [|intros _; apply IH].
  destruct dirty; [apply quiet_print|].
  unfold GetCommitCountDifference. repeat quiet_step.
Qed.

(** The selector up to the line it reads; [k] is what it does with the
    line. *)
Lemma selector_prefix {B} w dir (av : list Worktree) :
  exists t evs,
    forall (k : option string -> M B) v' t' i' evs',
      runs (k (hd_error (stdin w))) (cont w t (tl (stdin w))) v' t' i' evs' ->
      runs (cb <- GetCurrentBranch dir ;;
            print Title_select ;;
            print Println ;;
            showEntries (match cb with Ok b => b | Err _ => "" end) 0 av ;;
            print Println ;;
            print Print_enter_number ;;
            l <- ScanLine ;;
            k l)
           w v' t' i' (evs ++ evs').
Proof.
  assert (Q : quiet (GetCurrentBranch dir))
    by (unfold GetCurrentBranch; repeat quiet_step).
  destruct (Q w) as [cb [t1 [e1 H1]]].
  destruct (quiet_showEntries (match cb with Ok b => b | Err _ => "" end) av 0
              (cont w t1 (stdin w))) as [[] [t2 [e2 H2]]].
  exists t2, (e1 ++ Title_select :: Println :: e2 ++ [Println; Print_enter_number])%list.
  intros k v' t' i' evs' Hk.
  rewrite <- app_assoc. cbn [app]. rewrite <- app_assoc. cbn [app].
  eapply runs_bind; [exact H1|].
  do 2 apply runs_print_then.
  eapply runs_bind; [exact H2|].
  do 2 apply runs_print_then.
  eapply runs_bind_silent; [|exact Hk].
  apply (runs_eq _ _ _ _ _ _ _ _ (runs_ScanLine (cont (cont w t1 (stdin w)) t2 (stdin w))));
    reflexivity.
Qed.

Lemma nth_error_in_range {A} (l : list A) (k : Z) :
  1 <= k <= len l -> exists x, nth_error l (Z.to_nat (k - 1)) = Some x.
Proof.
  intros H. destruct (nth_error l (Z.to_nat (k - 1))) eqn:E; [now eexists|].
  apply nth_error_None in E. unfold len in H. lia.
Qed.

(** X11.  When the selector has worktrees to offer and the line typed, a
    line within the 64 KiB a scanner takes, scans after trimming as a
    number [k] between 1 and the number of offered worktrees, the selector
    returns the [k]-th offered worktree, in the order of the listing. *)
Theorem selector_returns_chosen_entry w worktrees currentDir line rest k :
  let offered := filter (rebaseCandidate currentDir) worktrees in
  stdin w = line :: rest ->
  Z.of_nat (String.length line) < 65536 ->
  fmt.Sscanf_d (strings.TrimSpace line) = Some k ->
  1 <= k <= len offered ->
  exists wt, nth_error offered (Z.to_nat (k - 1)) = Some wt /\
             value (selectWorktreeForRebase worktrees currentDir) w = Some wt.
Proof.
  intros offered Hi _ Hk Hr.
  assert (Hn : offered <> []).
  { intros E. rewrite E in Hr. unfold len in Hr. cbn in Hr. lia. }
  destruct (selector_prefix (B := option Worktree) w currentDir offered)
    as [t [evs P]].
  assert (R : runs (selectWorktreeForRebase worktrees currentDir) w
                (nth_error offered (Z.to_nat (k - 1))) t rest (evs ++ [])).
  { unfold selectWorktreeForRebase. fold offered. rewrite (len_nonzero _ Hn).
    apply P. rewrite Hi. cbn [hd_error tl].
    destruct (String.eqb_spec (strings.TrimSpace line) "q") as [E|_];
      [rewrite E in Hk; discriminate|].
    destruct (String.eqb_spec (strings.TrimSpace line) "") as [E|_];
      [rewrite E in Hk; discriminate|].
    cbn [orb]. rewrite Hk.
    replace ((k <? 1) || (len offered <? k)) with false
      by (symmetry; apply orb_false_iff; split; apply Z.ltb_ge; lia).
    now apply runs_ret_at. }
  rewrite (runs_value _ _ _ _ _ _ R).
  destruct (nth_error_in_range offered k Hr) as [wt E]. exists wt.
  now rewrite E.
Qed.

Lemma selector_returns_chosen_entry_witness :
  fmt.Sscanf_d (strings.TrimSpace " 2 ") = Some 2 /\
  value (selectWorktreeForRebase [wtMain; wtA; wtB] "/repo") pickSecondWorld
    = Some wtB.
Proof.
  split; [reflexivity|].
  destruct (selector_returns_chosen_entry pickSecondWorld [wtMain; wtA; wtB]
              "/repo" " 2 " [] 2 eq_refl eq_refl eq_refl) as [wt [E V]].
  - cbv. split; discriminate.
  - rewrite V. rewrite <- E. reflexivity.
Defined.

(** X12.  The selector returns nil in every other case: when nothing is
    offered, at the end of the input, and for every line that does not
    scan, after trimming, as a number between 1 and the number of offered
    worktrees ("q", an empty line, text, 0, a number too large). *)
Theorem selector_returns_nil_otherwise w worktrees currentDir :
  let offered := filter (rebaseCandidate currentDir) worktrees in
  ~ (exists line rest k,
       stdin w = line :: rest /\
       fmt.Sscanf_d (strings.TrimSpace line) = Some k /\
       1 <= k <= len offered) ->
  value (selectWorktreeForRebase worktrees currentDir) w = None.
Proof.
  intros offered Hno.
  destruct offered as [|x av] eqn:Eo.
  { unfold value, selectWorktreeForRebase. fold offered. rewrite Eo. reflexivity. }
  rewrite <- Eo in *.
  assert (Hn : offered <> []) by (rewrite Eo; discriminate).
  destruct (selector_prefix (B := option Worktree) w currentDir offered)
    as [t [evs P]].
  assert (R : exists i e, runs (selectWorktreeForRebase worktrees currentDir) w
                               None t i (evs ++ e)).
  { unfold selectWorktreeForRebase. fold offered. rewrite (len_nonzero _ Hn).
    destruct (stdin w) as [|line rest] eqn:Hi.
    - exists [], []. apply P. now apply runs_ret_at.
    - destruct (strings.TrimSpace line =? "q")%string eqn:Eq.
      { exists rest, []. apply P. cbn [hd_error tl].
        rewrite Eq. now apply runs_ret_at. }
      destruct (strings.TrimSpace line =? "")%string eqn:Ee.
      { exists rest, []. apply P. cbn [hd_error tl].
        rewrite Eq, Ee. now apply runs_ret_at. }
      exists rest, [Error_invalid_selection]. apply P.
      cbn [hd_error tl]. rewrite Eq, Ee. cbn [orb].
      destruct (fmt.Sscanf_d (strings.TrimSpace line)) as [k|] eqn:Ek.
      + destruct ((k <? 1) || (len offered <? k)) eqn:Er.
        * apply runs_print_then. now apply runs_ret_at.
        * exfalso. apply Hno. exists line, rest, k.
          apply orb_false_iff in Er. destruct Er as [E1 E2].
          apply Z.ltb_ge in E1, E2. repeat split; auto.
      + apply runs_print_then. now apply runs_ret_at. }
  destruct R as [i [e R]]. apply (runs_value _ _ _ _ _ _ R).
Qed.

Lemma selector_returns_nil_otherwise_witness :
  value (selectWorktreeForRebase [wtMain; wtA; wtB] "/repo") quitWorld = None.
Proof.
  apply (selector_returns_nil_otherwise quitWorld [wtMain; wtA; wtB] "/repo").
  intros [line [rest [k [Hi [Hk _]]]]].
  injection Hi as <- <-. discriminate Hk.
Defined.

(** X13.  When no target is determined for the rebase command (the
    argument matches no worktree, or the selector returns nil), the command
    ends there: it leaves the world as choosing the target left it, so no
    commit message is asked for and nothing is staged, committed or
    rebased. *)
Theorem rebase_without_target_ends w args currentDir currentBranch worktrees :
  os_Getwd w = Ok currentDir ->
  manager_GetCurrentBranch w = Ok currentBranch ->
  worktreeManager_List w = Ok worktrees ->
  worktrees <> [] ->
  value (determineTarget args worktrees currentDir) w = None ->
  after (rebaseSession args) w = after (determineTarget args worktrees currentDir) w /\
  mutations (trace (after (rebaseSession args) w)) = mutations (trace w).
Proof.
  intros Hd Hb Hl Hn Hv.
  assert (E : after (rebaseSession args) w
              = after (determineTarget args worktrees currentDir) w).
  { unfold after at 1. rewrite (rebaseSession_unfold _ _ _ _ _ Hd Hb Hl Hn).
    change (snd (bind ?m ?k w)) with (after (bind m k) w).
    rewrite after_bind, Hv. reflexivity. }
  split; [exact E|]. rewrite E.
  apply issues_readonly, issues_determineTarget.
Qed.

Lemma rebase_without_target_ends_witness :
  value (determineTarget [] [wtMain; wtA; wtB] "/repo") quitWorld = None /\
  mutations (trace (after (rebaseSession []) quitWorld)) = [] /\
  stdin (after (rebaseSession []) quitWorld) = [].
Proof.
  split; [reflexivity|].
  destruct (rebase_without_target_ends quitWorld [] "/repo" "main"
              [wtMain; wtA; wtB] eq_refl eq_refl eq_refl) as [E Hm];
    try reflexivity.
  - discriminate.
  - split; [exact Hm|]. rewrite E. reflexivity.
Defined.

(** ** Display names *)

Lemma Split_nonempty s sep : strings_Split s sep <> [].
Proof.
  destruct s as [|c s]; cbn; [discriminate|].
  destruct (Ascii.eqb c sep); [discriminate|].
  destruct (strings_Split s sep); discriminate.
Qed.

(** Splitting at a separator splits the list of fields. *)
Lemma Split_append a b sep :
  strings_Split (a ++ String sep b) sep = (strings_Split a sep ++ strings_Split b sep)%list.
Proof.
  induction a as [|c a IH]; cbn [append strings_Split].
  - now rewrite Ascii.eqb_refl.
  - destruct (Ascii.eqb c sep); [now rewrite IH|].
    rewrite IH. pose proof (Split_nonempty a sep).
    destruct (strings_Split a sep); [congruence | reflexivity].
Qed.

Lemma Split_single s sep :
  ~ In sep (list_ascii_of_string s) -> strings_Split s sep = [s].
Proof.
  induction s as [|c s IH]; cbn [list_ascii_of_string In strings_Split];
    [reflexivity|].
  intros H. destruct (Ascii.eqb_spec c sep) as [E|_]; [tauto|].
  rewrite IH by tauto. reflexivity.
Qed.

Lemma sessionPart_found a name post :
  forall before skipped,
    ~ In ".ccswitch" skipped ->
    sessionPart (before ++ skipped ++ ".ccswitch" :: a :: name :: post)
                (length before) (skipped ++ ".ccswitch" :: a :: name :: post)
    = Some name.
Proof.
  intros before skipped. revert before.
  induction skipped as [|p skipped IH]; intros before Hno.
  - cbn [app sessionPart]. change (".ccswitch" =? ".ccswitch")%string with true.
    replace (length before + 2 <? length (before ++ ".ccswitch" :: a :: name :: post))%nat
      with true
      by (symmetry; apply Nat.ltb_lt; rewrite length_app; cbn [length]; lia).
    cbn [andb]. rewrite app_nth2 by lia.
    replace (length before + 2 - length before)%nat with 2%nat by lia.
    reflexivity.
  - cbn [app sessionPart].
    destruct (String.eqb_spec p ".ccswitch") as [E|_];
      [exfalso; apply Hno; now left|].
    cbn [andb]. specialize (IH (before ++ [p])%list).
    rewrite length_app, <- app_assoc in IH. cbn [length app] in IH.
    rewrite Nat.add_1_r in IH. apply IH. intros I. apply Hno. now right.
Qed.

Lemma sessionPart_none parts :
  forall rest i, ~ In ".ccswitch" rest -> sessionPart parts i rest = None.
Proof.
  induction rest as [|p rest IH]; intros i Hno; [reflexivity|].
  cbn [sessionPart].
  destruct (String.eqb_spec p ".ccswitch") as [E|_];
    [exfalso; apply Hno; now left|].
  cbn [andb]. apply IH. intros I. apply Hno. now right.
Qed.

(** X14.  For a worktree path of the form
    [home ++ "/.ccswitch/worktrees/" ++ name ++ more], where no element of
    [home] is ".ccswitch", [name] has no separator and [more] is empty or
    starts a further element, the display name is [name], the element that
    follows "worktrees", whatever the branch is. *)
Theorem display_name_of_session_path wt currentDir home name more :
  Path wt = (home ++ "/.ccswitch/worktrees/" ++ name ++ more)%string ->
  ~ In ".ccswitch" (elements home) ->
  ~ In filepath_Separator (list_ascii_of_string name) ->
  more = "" \/ beginsWith filepath_Separator more ->
  getWorktreeDisplayName wt currentDir = name.
Proof.
  intros Hp Hh Hn Hm. unfold getWorktreeDisplayName.
  assert (C : strings.Contains (Path wt) ".ccswitch/worktrees/" = true).
  { apply Contains_spec. exists (home ++ "/")%string, (name ++ more)%string.
    rewrite Hp. now rewrite append_assoc. }
  rewrite C.
  assert (S : exists post,
             strings_Split (Path wt) filepath_Separator
             = (elements home ++ ".ccswitch" :: "worktrees" :: name :: post)%list).
  { rewrite Hp. unfold elements, filepath_Separator in *.
    change ("/.ccswitch/worktrees/" ++ name ++ more)%string
      with (String "/" (".ccswitch" ++ String "/" ("worktrees" ++ String "/" (name ++ more))))%string.
    rewrite !Split_append.
    destruct Hm as [-> | [m ->]].
    - rewrite append_empty, (Split_single name) by assumption.
      now exists [].
    - rewrite Split_append, (Split_single name) by assumption.
      now exists (strings_Split m "/"). }
  destruct S as [post ->].
  pose proof (sessionPart_found "worktrees" name post [] (elements home) Hh) as F.
  cbn [app length] in F. now rewrite F.
Qed.

Lemma display_name_of_session_path_witness :
  Path wtSession = ("/home/u" ++ "/.ccswitch/worktrees/" ++ "proj" ++ "/fix-login")%string /\
  getWorktreeDisplayName wtSession "/repo" = "proj".
Proof.
  split; [reflexivity|].
  apply (display_name_of_session_path wtSession "/repo" "/home/u" "proj" "/fix-login");
    try reflexivity.
  - cbv. intuition discriminate.
  - cbv. intuition discriminate.
  - right. now exists "fix-login".
Defined.

Lemma trimTrailingSeparators_name a name :
  name <> "" -> ~ In filepath_Separator (list_ascii_of_string name) ->
  trimTrailingSeparators (a ++ name) = (a ++ name)%string.
Proof.
  intros Hne Hn.
  assert (B : trimTrailingSeparators name = name).
  { clear Hne. induction name as [|c s IH]; [reflexivity|].
    cbn [list_ascii_of_string In] in Hn. cbn [trimTrailingSeparators].
    rewrite IH by tauto.
    destruct (Ascii.eqb_spec c filepath_Separator) as [E|_]; [tauto|].
    reflexivity. }
  induction a as [|c a IH]; cbn [append trimTrailingSeparators]; [exact B|].
  rewrite IH.
  replace ((a ++ name) =? "")%string with false; [now rewrite andb_false_r|].
  symmetry. apply String.eqb_neq. destruct a; cbn; [assumption|discriminate].
Qed.

Lemma Base_of_joined dir name :
  name <> "" -> ~ In filepath_Separator (list_ascii_of_string name) ->
  filepath_Base (dir ++ String filepath_Separator name) = name.
Proof.
  intros Hne Hn. unfold filepath_Base.
  replace ((dir ++ String filepath_Separator name) =? "")%string with false
    by (symmetry; apply String.eqb_neq; destruct dir; discriminate).
  change (dir ++ String filepath_Separator name)%string
    with (dir ++ (String filepath_Separator "" ++ name))%string.
  rewrite <- append_assoc, trimTrailingSeparators_name by assumption.
  rewrite append_assoc. cbn [append].
  rewrite Split_append, (Split_single name) by assumption.
  rewrite last_last. apply String.eqb_neq in Hne. now rewrite Hne.
Qed.

(** X15.  For a worktree whose path has no element ".ccswitch", the display
    name is the branch when the worktree has one; for a detached worktree
    at [dir ++ "/" ++ name], with [name] a non-empty last element, it is
    [name]. *)
Theorem display_name_outside_sessions wt currentDir :
  ~ In ".ccswitch" (elements (Path wt)) ->
  (Branch wt <> "" -> getWorktreeDisplayName wt currentDir = Branch wt) /\
  (Branch wt = "" ->
   forall dir name,
     Path wt = (dir ++ String filepath_Separator name)%string ->
     name <> "" -> ~ In filepath_Separator (list_ascii_of_string name) ->
     getWorktreeDisplayName wt currentDir = name).
Proof.
  intros Hno. unfold getWorktreeDisplayName.
  assert (N : (if strings.Contains (Path wt) ".ccswitch/worktrees/"
               then sessionPart (strings_Split (Path wt) filepath_Separator) 0
                                (strings_Split (Path wt) filepath_Separator)
               else None) = None).
  { destruct (strings.Contains _ _); [|reflexivity].
    now apply sessionPart_none. }
  rewrite N. split.
  - intros H. apply String.eqb_neq in H. now rewrite H.
  - intros H dir name Hp Hne Hn. rewrite H. cbn [String.eqb negb].
    rewrite Hp. now apply Base_of_joined.
Qed.

Lemma display_name_outside_sessions_witness :
  getWorktreeDisplayName wtA "/repo" = "a" /\
  getWorktreeDisplayName wtDetached "/repo" = "detached".
Proof.
  assert (Ha : ~ In ".ccswitch" (elements (Path wtA)))
    by (cbv; intuition discriminate).
  assert (Hd : ~ In ".ccswitch" (elements (Path wtDetached)))
    by (cbv; intuition discriminate).
  split.
  - apply (proj1 (display_name_outside_sessions wtA "/repo" Ha)). discriminate.
  - apply (proj2 (display_name_outside_sessions wtDetached "/repo" Hd)
             eq_refl "/w" "detached"); try reflexivity.
    + discriminate.
    + cbv. intuition discriminate.
Defined.

(** ** What the selector shows and what the prompt returns *)

Lemma showEntries_lines cur ws :
  forall i w, exists t evs,
    runs (showEntries cur i ws) w tt t (stdin w) evs /\
    map entry evs = map Some (numberFrom (i + 1) ws).
Proof.
  induction ws as [|wt rest IH]; intros i w.
  - exists (trace w), []. split; [apply runs_ret|reflexivity].
  - assert (Q : quiet (HasUncommittedChanges (Path wt)))
      by (unfold HasUncommittedChanges; repeat quiet_step).
    destruct (Q w) as [dirty [t1 [e1 H1]]].
    assert (E1 : e1 = []).
    { pose proof (runs_after _ _ _ _ _ _ H1) as A.
      apply (f_equal stdout) in A. revert A.
      unfold after, HasUncommittedChanges, bind, CombinedOutput, ret. cbn.
      destruct (git w (trace w) _) as [o [e|]]; cbn; intros A;
        apply (f_equal (@length Out)) in A; rewrite length_app in A;
        (destruct e1; [reflexivity | cbn [length] in A; lia]). }
    subst e1.
    assert (L : exists c t2,
               runs (if dirty then print (Printf_entry Yellow (i + 1) wt)
                     else
                       r <- GetCommitCountDifference (Path wt) cur ;;
                       match r with
                       | Ok diff =>
                           if 0 <? diff then print (Printf_entry Green (i + 1) wt)
                           else print (Printf_entry Gray (i + 1) wt)
                       | Err _ => print (Printf_entry Gray (i + 1) wt)
                       end)
                    (cont w t1 (stdin w)) tt t2 (stdin w)
                    [Printf_entry c (i + 1) wt]).
    { destruct dirty.
      - exists Yellow, t1. now apply runs_print_at.
      - unfold runs, GetCommitCountDifference, bind, CombinedOutput, print, ret,
          with_trace, with_stdout, cont, set_io. cbn.
        ask_git ao ae; [exists Gray; eexists; intros o; reflexivity|].
        ask_git bo be; [exists Gray; eexists; intros o; reflexivity|].
        match goal with |- context [0 <? ?d] => destruct (0 <? d) end;
          [exists Green | exists Gray]; eexists; intros o; cbn; reflexivity. }
    destruct L as [c [t2 H2]].
    destruct (IH (i + 1) (cont w t2 (stdin w))) as [t3 [e3 [H3 M3]]].
    exists t3, (Printf_entry c (i + 1) wt :: e3). split.
    + cbn [showEntries].
      eapply runs_bind_silent; [exact H1|].
      change (Printf_entry c (i + 1) wt :: e3)
        with ([Printf_entry c (i + 1) wt] ++ e3)%list.
      eapply runs_bind; [exact H2|exact H3].
    + cbn [map numberFrom entry]. now rewrite M3.
Qed.

(** X17.  The list of the selector has one line for each worktree it is
    given, in the same order, numbered from the loop index plus one (from 1
    for the whole list); it prints nothing else, reads no input and issues
    only queries. *)
Theorem selector_list_numbers_the_offered_worktrees cur i ws w :
  exists evs,
    stdout (after (showEntries cur i ws) w) = (stdout w ++ evs)%list /\
    map entry evs = map Some (numberFrom (i + 1) ws) /\
    stdin (after (showEntries cur i ws) w) = stdin w /\
    mutations (trace (after (showEntries cur i ws) w)) = mutations (trace w).
Proof.
  destruct (showEntries_lines cur ws i w) as [t [evs [R Hm]]].
  exists evs. pose proof (issues_readonly (showEntries cur i ws) w) as Hro.
  rewrite (runs_after _ _ _ _ _ _ R) in *. cbn [stdout stdin trace set_io] in *.
  repeat split; try assumption.
  apply Hro. eapply issues_weaken; [|apply issues_showEntries]. now intros c [H _].
Qed.

(** X18.  The commit message the prompt returns is empty at the end of
    the input, and for a line within the 64 KiB a scanner takes it is empty
    exactly when the line is white space only (white space as
    [strings.TrimSpace] trims it, Unicode white space included).  The
    prompt issues no command. *)
Theorem commit_message_is_empty_iff_blank w :
  (stdin w = [] -> value promptForCommitMessage w = "") /\
  (forall line rest,
     stdin w = line :: rest ->
     Z.of_nat (String.length line) < 65536 ->
     (value promptForCommitMessage w = "" <-> blank line)) /\
  trace (after promptForCommitMessage w) = trace w.
Proof.
  unfold value, after, promptForCommitMessage, bind, print, ScanLine, ret,
    with_stdout, with_stdin. cbn.
  destruct (stdin w) as [|l r]; cbn.
  - split; [reflexivity|]. split; [|reflexivity]. discriminate.
  - split; [discriminate|]. split; [|reflexivity].
    intros line rest E _. injection E as <- <-. apply TrimSpace_blank.
Qed.

Lemma commit_message_is_empty_iff_blank_witness :
  stdin blankMessageWorld = ["   "] /\
  Z.of_nat (String.length "   ") < 65536 /\
  blank "   ".
Proof.
  split; [reflexivity|]. split; [reflexivity|].
  apply (proj1 (proj1 (proj2 (commit_message_is_empty_iff_blank blankMessageWorld))
                  "   " [] eq_refl eq_refl)).
  reflexivity.
Defined.

(** ** The repository name *)

(** X19.  The repository name is the last element of the toplevel path the
    backend reports: when the trimmed output of the query is
    [dir ++ "/" ++ name], with [name] not empty and without a separator,
    the result is [name].  A failed query gives its error unchanged.  The
    query is the only command issued. *)
Theorem repo_name_is_last_element_of_toplevel w dir :
  let query := git_in dir ["rev-parse"; "--show-toplevel"] in
  (forall output parent name,
     git w (trace w) query = (output, None) ->
     strings.TrimSpace output = (parent ++ String filepath_Separator name)%string ->
     name <> "" -> ~ In filepath_Separator (list_ascii_of_string name) ->
     value (GetRepoName dir) w = Ok name) /\
  (forall output e,
     git w (trace w) query = (output, Some e) ->
     value (GetRepoName dir) w = Err e) /\
  trace (after (GetRepoName dir) w) = (trace w ++ [query])%list.
Proof.
  unfold value, after, GetRepoName, bind, CombinedOutput, ret. cbn.
  destruct (git w (trace w) _) as [o [e|]]; cbn; repeat split.
  - discriminate.
  - now intros output e' [= _ <-].
  - intros output parent name [= <-] Ht Hne Hn. rewrite Ht.
    now rewrite Base_of_joined.
  - discriminate.
Qed.

Lemma repo_name_is_last_element_of_toplevel_witness :
  strings.TrimSpace ("/home/u/proj" ++ nl) = ("/home/u" ++ String filepath_Separator "proj")%string /\
  value (GetRepoName "/w/a") toplevelWorld = Ok "proj".
Proof.
  split; [reflexivity|].
  apply (proj1 (repo_name_is_last_element_of_toplevel toplevelWorld "/w/a")
           ("/home/u/proj" ++ nl)%string "/home/u" "proj"); try reflexivity.
  - discriminate.
  - cbv. intuition discriminate.
Defined.

Lemma safety_loop_partitions_targets_witness :
  value (safetyChecks "main" [wtA; wtB; wtC] [] []) scenarioWorld
    = (["a"; "c"], [wtB]) /\
  exists u, sorts "main" [wtA; wtB; wtC] scenarioWorld u [wtB] /\
            ["a"; "c"] = map Branch u.
Proof.
  split; [reflexivity|].
  exact (proj1 (safety_loop_partitions_targets "main" [wtA; wtB; wtC]
                  scenarioWorld)).
Defined.
